(** * Img2Img: the credential gate and the generation orchestrator

    A shallow embedding of the three React components of the repository
    ([App], [APIKeyInput], [ImageGenerator]) and the properties of their
    event handlers.

    - Component state ([useState]) is a record; an event handler is a
      computation in a small state-and-exception monad over the [World]
      (component states, the log of requests handed to [fetch], the
      console).  [await] is sequencing; state written before a [throw]
      stays written.
    - The network is an oracle from requests to outcomes of [fetch]: the
      promise rejects, or it resolves to a response whose [json()] in turn
      rejects or yields a JSON value.
    - JavaScript values read by the handlers (parsed JSON bodies) are the
      inductive [value]; the parts of the language the handlers rely on
      (property access, [?.], [||], [new Error], [instanceof Error],
      [String.prototype.trim], template literals, [Array.prototype.filter])
      are written out below.

    Two things are outside the model.  Every awaited promise settles: a
    [fetch] that neither resolves nor rejects has no counterpart here.
    And a handler is followed from its event to its end on its own: what
    other events do to the state while it awaits is not. *)

From Stdlib Require Import String Ascii List ZArith Bool Lia Arith.
From Stdlib Require Import DecimalString.
Import ListNotations.
Set Warnings "-register-all".
Local Open Scope list_scope.
Local Open Scope string_scope.

(** ** What is left to the JavaScript engine

    Two things the handlers observe are fixed by the engine and not by the
    program: the Number type (only its truthiness and its conversion to a
    string are ever observed) and the wording of the [TypeError]s the
    engine raises by itself. *)
Class Engine : Type := {
  number : Type;
  (** [false] exactly for [0], [-0] and [NaN]. *)
  number_truthy : number -> bool;
  (** [Number::toString]. *)
  number_to_string : number -> string;
  (** A numeric literal of the source. *)
  number_of_nat : nat -> number;
  (** Message of the [TypeError] raised by reading property [p] of [null]
      ([true]) or of [undefined] ([false]). *)
  read_error : bool -> string -> string;
  (** Message of the [TypeError] raised when an object has no primitive
      value. *)
  convert_error : string
}.

(** An engine to run the model on: integers for numbers, V8's messages. *)
Definition v8 : Engine := {|
  number := Z;
  number_truthy := fun z => negb (Z.eqb z 0);
  number_to_string := fun z => NilZero.string_of_int (Z.to_int z);
  number_of_nat := Z.of_nat;
  read_error := fun is_null p =>
    "Cannot read properties of " ++ (if is_null then "null" else "undefined")
      ++ " (reading '" ++ p ++ "')";
  convert_error := "Cannot convert object to primitive value"
|}.

(** ** Strings

    A [string] is a sequence of code units; an [ascii] stands for the code
    unit of the same number (0 to 255). *)

(** The code units below 256 that [trim] strips: TAB, LF, VT, FF, CR,
    SPACE and NO-BREAK SPACE. *)
Definition is_whitespace (c : ascii) : bool :=
  let n := nat_of_ascii c in
  (Nat.leb 9 n && Nat.leb n 13) || Nat.eqb n 32 || Nat.eqb n 160.

Fixpoint trimStart (s : string) : string :=
  match s with
  | String c r => if is_whitespace c then trimStart r else s
  | EmptyString => EmptyString
  end.

Fixpoint trimEnd (s : string) : string :=
  match s with
  | String c r =>
      match trimEnd r with
      | EmptyString => if is_whitespace c then EmptyString else String c EmptyString
      | r' => String c r'
      end
  | EmptyString => EmptyString
  end.

(** [String.prototype.trim]. *)
Definition trim (s : string) : string := trimEnd (trimStart s).

(** Truthiness of a string: it is not empty. *)
Definition string_truthy (s : string) : bool :=
  match s with EmptyString => false | String _ _ => true end.

(** A non-negative integer in a template literal: [`${n}`]. *)
Definition nat_to_string (n : nat) : string :=
  NilZero.string_of_uint (Nat.to_uint n).

(** The double quote, U+0022. *)
Definition dquote : string := String (ascii_of_nat 34) EmptyString.

Section Model.
Context {E : Engine}.

(** ** JavaScript values *)

(** The values the handlers read: what [JSON.parse] builds, and
    [undefined].  An object is the list of its own properties; a lookup
    takes the first binding of the name. *)
Inductive value : Type :=
| VUndefined
| VNull
| VBool (b : bool)
| VNumber (n : number)
| VString (s : string)
| VArray (items : list value)
| VObject (fields : list (string * value)).

(** What a [throw] carries: an instance of [Error] with its message, or
    any other value. *)
Inductive exn : Type :=
| ErrorObject (message : string)
| Thrown (v : value).

(** The outcome of evaluating an expression or awaiting a promise. *)
Inductive Result (A : Type) : Type :=
| Ok (a : A)
| Throw (e : exn).
Arguments Ok {A} a.
Arguments Throw {A} e.

Fixpoint lookup (name : string) (fields : list (string * value)) : option value :=
  match fields with
  | [] => None
  | (k, v) :: rest => if String.eqb k name then Some v else lookup name rest
  end.

Definition is_nullish (v : value) : bool :=
  match v with VUndefined | VNull => true | _ => false end.

(** [base.name] for a property name that no prototype defines and that is
    not [length]: every name the handlers read ([error], [message],
    [choices], [content], [data], [url]) is such a name. *)
Definition get (base : value) (name : string) : Result value :=
  match base with
  | VUndefined => Throw (ErrorObject (read_error false name))
  | VNull => Throw (ErrorObject (read_error true name))
  | VObject fields =>
      Ok (match lookup name fields with Some v => v | None => VUndefined end)
  | VBool _ | VNumber _ | VString _ | VArray _ => Ok VUndefined
  end.

(** [base[i]] for a literal index [i]. *)
Definition get_index (base : value) (i : nat) : Result value :=
  match base with
  | VUndefined => Throw (ErrorObject (read_error false (nat_to_string i)))
  | VNull => Throw (ErrorObject (read_error true (nat_to_string i)))
  | VObject fields =>
      Ok (match lookup (nat_to_string i) fields with Some v => v | None => VUndefined end)
  | VArray items => Ok (nth i items VUndefined)
  | VString s =>
      Ok (match String.get i s with
          | Some c => VString (String c EmptyString)
          | None => VUndefined
          end)
  | VBool _ | VNumber _ => Ok VUndefined
  end.

(** [base?.name]. *)
Definition get_opt (base : value) (name : string) : Result value :=
  if is_nullish base then Ok VUndefined else get base name.

(** ToBoolean. *)
Definition truthy (v : value) : bool :=
  match v with
  | VUndefined | VNull => false
  | VBool b => b
  | VNumber n => number_truthy n
  | VString s => string_truthy s
  | VArray _ | VObject _ => true
  end.

(** [a || b] with [b] already a value. *)
Definition or_else (a b : value) : value := if truthy a then a else b.

Definition has_key (name : string) (fields : list (string * value)) : bool :=
  match lookup name fields with Some _ => true | None => false end.

(** ToString.  An array joins its elements with commas, [null] and
    [undefined] elements as the empty string.  A parsed object has no
    callable property of its own: it prints as [[object Object]] through
    [Object.prototype.toString] unless an own [toString] property hides
    that method, and then it has no primitive value. *)
Fixpoint ToString (v : value) : Result string :=
  match v with
  | VUndefined => Ok "undefined"
  | VNull => Ok "null"
  | VBool b => Ok (if b then "true" else "false")
  | VNumber n => Ok (number_to_string n)
  | VString s => Ok s
  | VArray items =>
      (fix join (l : list value) : Result string :=
         match l with
         | [] => Ok ""
         | x :: rest =>
             match (if is_nullish x then Ok "" else ToString x) with
             | Throw e => Throw e
             | Ok sx =>
                 match rest with
                 | [] => Ok sx
                 | _ :: _ =>
                     match join rest with
                     | Throw e => Throw e
                     | Ok sr => Ok (sx ++ "," ++ sr)
                     end
                 end
             end
         end) items
  | VObject fields =>
      if has_key "toString" fields
      then Throw (ErrorObject convert_error)
      else Ok "[object Object]"
  end.

(** [new Error(message)]: the message is ToString of the argument, absent
    (read back as the empty string) when the argument is [undefined]. *)
Definition new_Error (message : value) : Result exn :=
  match message with
  | VUndefined => Ok (ErrorObject "")
  | _ =>
      match ToString message with
      | Ok s => Ok (ErrorObject s)
      | Throw e => Throw e
      end
  end.

(** ** The network *)

Inductive Method : Type := GET | POST.

(** What a handler hands to [fetch]: the URL, the method ([GET] when the
    call names none), the headers in the order written, and for a body the
    value passed to [JSON.stringify]. *)
Record Request : Type := {
  req_url : string;
  req_method : Method;
  req_headers : list (string * string);
  req_body : option value
}.

(** A response as the handlers read it: [status], [statusText], and what
    the one call of [json()] on it settles to. *)
Record Response : Type := {
  status : nat;
  statusText : string;
  json : Result value
}.

(** [response.ok]: the status is in the range 200 to 299. *)
Definition ok (r : Response) : bool :=
  Nat.leb 200 (status r) && Nat.leb (status r) 299.

(** The outcome of awaiting [fetch(request)]: the promise rejects (no
    response) or resolves to a response. *)
Definition Network : Type := Request -> Result Response.

(** ** Component state *)

(** [App]: [useState<string | null>(null)]. *)
Record AppState : Type := {
  app_apiKey : option string
}.

(** [APIKeyInput]: the text of the input, and the two transient flags. *)
Record APIKeyInputState : Type := {
  input_apiKey : string;
  isValidating : bool;
  validationError : string
}.

(** [ImageGenerator].  [generatedImage] is declared [string | null]; at
    run time it holds whatever [data[0].url] was, so it is a [value],
    [VNull] when absent. *)
Record ImageGeneratorState : Type := {
  uploadedImages : list string;
  prompt : string;
  generatedImage : value;
  isGenerating : bool;
  error : string;
  isDragging : bool
}.

Definition App_initial : AppState := {| app_apiKey := None |}.

Definition APIKeyInput_initial : APIKeyInputState :=
  {| input_apiKey := ""; isValidating := false; validationError := "" |}.

Definition ImageGenerator_initial : ImageGeneratorState :=
  {| uploadedImages := []; prompt := ""; generatedImage := VNull;
     isGenerating := false; error := ""; isDragging := false |}.

(** Everything a handler can read or change: the state of the three
    components, the requests handed to [fetch] so far (oldest first), and
    what was passed to [console.error]. *)
Record World : Type := {
  app : AppState;
  keyInput : APIKeyInputState;
  generator : ImageGeneratorState;
  sent : list Request;
  console : list exn
}.

(** ** Handlers as computations *)

Definition Eff (A : Type) : Type := World -> Result A * World.

Definition ret {A} (a : A) : Eff A := fun w => (Ok a, w).

Definition bind {A B} (m : Eff A) (k : A -> Eff B) : Eff B :=
  fun w =>
    match m w with
    | (Ok a, w') => k a w'
    | (Throw e, w') => (Throw e, w')
    end.

Definition throw {A} (e : exn) : Eff A := fun w => (Throw e, w).

(** The value or the exception of an expression that touches no state. *)
Definition lift {A} (r : Result A) : Eff A := fun w => (r, w).

(** [try { body } catch (e) { handler(e) } finally { finalizer }]: the
    finalizer runs on every path, and an exception of the handler or of
    the finalizer is the statement's. *)
Definition try_catch_finally {A} (body : Eff A) (handler : exn -> Eff A)
    (finalizer : Eff unit) : Eff A :=
  fun w =>
    let (r1, w1) := body w in
    let (r2, w2) :=
      match r1 with
      | Ok a => (Ok a, w1)
      | Throw e => handler e w1
      end in
    match finalizer w2 with
    | (Ok _, w3) => (r2, w3)
    | (Throw e, w3) => (Throw e, w3)
    end.

End Model.

Arguments Ok {E A} a.
Arguments Throw {E A} e.

Declare Scope eff_scope.
Delimit Scope eff_scope with eff.
Notation "x <- m ;; k" := (bind m (fun x => k))
  (at level 61, m at next level, right associativity) : eff_scope.
Notation "m ;; k" := (bind m (fun _ => k))
  (at level 61, right associativity) : eff_scope.

Section Handlers.
Context {E : Engine}.
Local Open Scope eff_scope.

(** *** State setters and the two effects *)

Definition setApiKey (k : option string) : Eff unit := fun w =>
  (Ok tt, {| app := {| app_apiKey := k |}; keyInput := keyInput w;
             generator := generator w; sent := sent w; console := console w |}).

Definition modify_keyInput (f : APIKeyInputState -> APIKeyInputState) : Eff unit :=
  fun w =>
    (Ok tt, {| app := app w; keyInput := f (keyInput w);
               generator := generator w; sent := sent w; console := console w |}).

Definition setIsValidating (b : bool) : Eff unit :=
  modify_keyInput (fun s =>
    {| input_apiKey := input_apiKey s; isValidating := b;
       validationError := validationError s |}).

Definition setValidationError (msg : string) : Eff unit :=
  modify_keyInput (fun s =>
    {| input_apiKey := input_apiKey s; isValidating := isValidating s;
       validationError := msg |}).

Definition modify_generator (f : ImageGeneratorState -> ImageGeneratorState) : Eff unit :=
  fun w =>
    (Ok tt, {| app := app w; keyInput := keyInput w;
               generator := f (generator w); sent := sent w; console := console w |}).

(** [setUploadedImages(prev => f(prev))]; [setUploadedImages(v)] is the
    constant update. *)
Definition setUploadedImages (f : list string -> list string) : Eff unit :=
  modify_generator (fun s =>
    {| uploadedImages := f (uploadedImages s); prompt := prompt s;
       generatedImage := generatedImage s; isGenerating := isGenerating s;
       error := error s; isDragging := isDragging s |}).

Definition setPrompt (p : string) : Eff unit :=
  modify_generator (fun s =>
    {| uploadedImages := uploadedImages s; prompt := p;
       generatedImage := generatedImage s; isGenerating := isGenerating s;
       error := error s; isDragging := isDragging s |}).

Definition setGeneratedImage (v : value) : Eff unit :=
  modify_generator (fun s =>
    {| uploadedImages := uploadedImages s; prompt := prompt s;
       generatedImage := v; isGenerating := isGenerating s;
       error := error s; isDragging := isDragging s |}).

Definition setIsGenerating (b : bool) : Eff unit :=
  modify_generator (fun s =>
    {| uploadedImages := uploadedImages s; prompt := prompt s;
       generatedImage := generatedImage s; isGenerating := b;
       error := error s; isDragging := isDragging s |}).

Definition setError (msg : string) : Eff unit :=
  modify_generator (fun s =>
    {| uploadedImages := uploadedImages s; prompt := prompt s;
       generatedImage := generatedImage s; isGenerating := isGenerating s;
       error := msg; isDragging := isDragging s |}).

(** The state a handler's closure sees: the one of the render it was
    created in, here the state at the time of the event. *)
Definition read_keyInput : Eff APIKeyInputState := fun w => (Ok (keyInput w), w).
Definition read_generator : Eff ImageGeneratorState := fun w => (Ok (generator w), w).

(** [await fetch(request)]: the request is issued, then the promise
    settles as the network decides. *)
Definition fetch (net : Network) (request : Request) : Eff Response := fun w =>
  (net request,
   {| app := app w; keyInput := keyInput w; generator := generator w;
      sent := (sent w ++ [request])%list; console := console w |}).

(** [console.error(label, e)]. *)
Definition console_error (e : exn) : Eff unit := fun w =>
  (Ok tt,
   {| app := app w; keyInput := keyInput w; generator := generator w;
      sent := sent w; console := (console w ++ [e])%list |}).

(** ** App *)

Definition handleAPIKeyValidated (key : string) : Eff unit := setApiKey (Some key).

Definition handleLogout : Eff unit := setApiKey None.

Inductive Screen : Type :=
| KeyEntry
| Workspace (apiKey : string).

(** [!apiKey ? <APIKeyInput .../> : <ImageGenerator apiKey={apiKey} .../>]:
    [null] and the empty string are falsy. *)
Definition App_render (a : AppState) : Screen :=
  match app_apiKey a with
  | None => KeyEntry
  | Some k => if string_truthy k then Workspace k else KeyEntry
  end.

(** ** APIKeyInput *)

Definition bearer_headers (apiKey : string) : list (string * string) :=
  [("Authorization", "Bearer " ++ apiKey); ("Content-Type", "application/json")].

Definition modelsRequest (apiKey : string) : Request :=
  {| req_url := "https://api.openai.com/v1/models";
     req_method := GET;
     req_headers := bearer_headers apiKey;
     req_body := None |}.

Definition validateAPIKey (net : Network) (onAPIKeyValidated : string -> Eff unit)
    : Eff unit :=
  st <- read_keyInput ;;
  let apiKey := input_apiKey st in
  if negb (string_truthy (trim apiKey)) then
    setValidationError "Please enter your OpenAI API key"
  else
    setIsValidating true ;;
    setValidationError "" ;;
    try_catch_finally
      (response <- fetch net (modelsRequest apiKey) ;;
       if ok response then onAPIKeyValidated apiKey
       else setValidationError "Invalid API key. Please check and try again.")
      (fun _ =>
         setValidationError "Network error. Please check your connection and try again.")
      (setIsValidating false).

(** ** ImageGenerator *)

(** [prev.filter((_, i) => f(i))], the indices counted from [i]. *)
Fixpoint filter_from {A} (f : A -> Z -> bool) (i : Z) (l : list A) : list A :=
  match l with
  | [] => []
  | x :: rest =>
      if f x i then x :: filter_from f (i + 1) rest
      else filter_from f (i + 1) rest
  end.

Definition filter_indexed {A} (f : A -> Z -> bool) (l : list A) : list A :=
  filter_from f 0 l.

Definition removeImage (index : Z) : Eff unit :=
  setUploadedImages (fun prev => filter_indexed (fun _ i => negb (Z.eqb i index)) prev).

Definition visionInstruction (count : nat) (prompt : string) : string :=
  "Based on these " ++ nat_to_string count
  ++ " image(s) and the user's request: " ++ dquote ++ prompt ++ dquote
  ++ ", create a detailed and specific prompt for DALL-E 3 image generation. The prompt should be descriptive, artistic, and suitable for creating a high-quality image. Focus on visual elements, style, composition, and artistic details. Consider all the images provided as reference or inspiration.".

Definition visionContent (uploadedImages : list string) (prompt : string) : value :=
  VArray
    (VObject [("type", VString "text");
              ("text", VString (visionInstruction (length uploadedImages) prompt))]
     :: map (fun image =>
               VObject [("type", VString "image_url");
                        ("image_url", VObject [("url", VString image)])])
            uploadedImages).

Definition visionRequest (apiKey : string) (uploadedImages : list string)
    (prompt : string) : Request :=
  {| req_url := "https://api.openai.com/v1/chat/completions";
     req_method := POST;
     req_headers := bearer_headers apiKey;
     req_body := Some (VObject
       [("model", VString "gpt-4o");
        ("messages", VArray [VObject [("role", VString "user");
                                      ("content", visionContent uploadedImages prompt)]]);
        ("max_tokens", VNumber (number_of_nat 1000))]) |}.

Definition imagesEndpoint : string := "https://api.openai.com/v1/images/generations".

Definition imageRequest (apiKey : string) (refinedPrompt : value) : Request :=
  {| req_url := imagesEndpoint;
     req_method := POST;
     req_headers := bearer_headers apiKey;
     req_body := Some (VObject
       [("model", VString "dall-e-3");
        ("prompt", refinedPrompt);
        ("n", VNumber (number_of_nat 1));
        ("size", VString "1024x1024")]) |}.

(** [errorData.error?.message]. *)
Definition error_message_of (errorData : value) : Result value :=
  match get errorData "error" with
  | Throw e => Throw e
  | Ok err => get_opt err "message"
  end.

(** The block under [if (!visionResponse.ok)]: read the body, pick
    [error?.message] or the status line, and throw it as an [Error]. *)
Definition throwVisionError (visionResponse : Response) : Eff unit :=
  visionErrorData <- lift (json visionResponse) ;;
  msg <- lift (error_message_of visionErrorData) ;;
  let visionErrorMessage :=
    or_else msg
      (VString ("Vision API error: " ++ nat_to_string (status visionResponse)
                ++ " " ++ statusText visionResponse)) in
  e <- lift (new_Error visionErrorMessage) ;;
  throw e.

(** [visionData.choices[0].message.content]. *)
Definition refinedPrompt_of (visionData : value) : Result value :=
  match get visionData "choices" with
  | Throw e => Throw e
  | Ok choices =>
      match get_index choices 0 with
      | Throw e => Throw e
      | Ok choice =>
          match get choice "message" with
          | Throw e => Throw e
          | Ok message => get message "content"
          end
      end
  end.

(** The block under [if (!imageResponse.ok)]. *)
Definition throwImageError (imageResponse : Response) : Eff unit :=
  errorData <- lift (json imageResponse) ;;
  msg <- lift (error_message_of errorData) ;;
  e <- lift (new_Error (or_else msg (VString "Failed to generate image"))) ;;
  throw e.

(** [imageData.data[0].url]. *)
Definition url_of (imageData : value) : Result value :=
  match get imageData "data" with
  | Throw e => Throw e
  | Ok data =>
      match get_index data 0 with
      | Throw e => Throw e
      | Ok first => get first "url"
      end
  end.

(** The body of the [try] block of [generateImage]. *)
Definition generateImage_try (apiKey : string) (net : Network)
    (uploadedImages : list string) (prompt : string) : Eff unit :=
  visionResponse <- fetch net (visionRequest apiKey uploadedImages prompt) ;;
  (if negb (ok visionResponse) then throwVisionError visionResponse else ret tt) ;;
  visionData <- lift (json visionResponse) ;;
  refinedPrompt <- lift (refinedPrompt_of visionData) ;;
  imageResponse <- fetch net (imageRequest apiKey refinedPrompt) ;;
  (if negb (ok imageResponse) then throwImageError imageResponse else ret tt) ;;
  imageData <- lift (json imageResponse) ;;
  url <- lift (url_of imageData) ;;
  setGeneratedImage url.

(** [error instanceof Error ? error.message : 'Failed to generate image.
    Please try again.'] *)
Definition errorMessage_of (error : exn) : string :=
  match error with
  | ErrorObject message => message
  | Thrown _ => "Failed to generate image. Please try again."
  end.

(** The [catch] block of [generateImage]. *)
Definition generateImage_catch (error : exn) : Eff unit :=
  let errorMessage := errorMessage_of error in
  setError errorMessage ;;
  console_error error.

Definition generateImage (apiKey : string) (net : Network) : Eff unit :=
  st <- read_generator ;;
  let uploadedImages := uploadedImages st in
  let prompt := prompt st in
  if Nat.eqb (length uploadedImages) 0 || negb (string_truthy (trim prompt)) then
    setError "Please upload at least one image and enter a prompt"
  else
    setIsGenerating true ;;
    setError "" ;;
    try_catch_finally
      (generateImage_try apiKey net uploadedImages prompt)
      generateImage_catch
      (setIsGenerating false).

Definition refreshGeneration : Eff unit :=
  setUploadedImages (fun _ => []) ;;
  setPrompt "" ;;
  setGeneratedImage VNull ;;
  setError "".

(** [ImageGenerator] is mounted only on the workspace screen, with the key
    [App] holds as its [apiKey] prop: the generate action as [App] wires
    it. *)
Definition App_generateImage (net : Network) : Eff unit := fun w =>
  match App_render (app w) with
  | Workspace apiKey => generateImage apiKey net w
  | KeyEntry => (Ok tt, w)
  end.

(** ** Observing a run *)

(** The world a handler leaves, and the exception that escapes it if any. *)
Definition after {A} (handler : Eff A) (w : World) : World := snd (handler w).
Definition outcome {A} (handler : Eff A) (w : World) : Result A := fst (handler w).

(** The requests handed to [fetch] between [w] and a later world [w']. *)
Definition issued (w w' : World) : list Request :=
  skipn (length (sent w)) (sent w').

(** The value of a header of a request. *)
Fixpoint header (name : string) (headers : list (string * string)) : option string :=
  match headers with
  | [] => None
  | (k, v) :: rest => if String.eqb k name then Some v else header name rest
  end.

(** [w] with [requests] more handed to [fetch]. *)
Definition logged (w : World) (requests : list Request) : World :=
  {| app := app w; keyInput := keyInput w; generator := generator w;
     sent := (sent w ++ requests)%list; console := console w |}.

(** The world a generation that failed with [e] leaves behind, [requests]
    being the ones it issued: the message of [e] is the error, [e] is on
    the console, the flag is down, and the rest is as in [w]. *)
Definition failed (w : World) (requests : list Request) (e : exn) : World :=
  {| app := app w; keyInput := keyInput w;
     generator :=
       {| uploadedImages := uploadedImages (generator w);
          prompt := prompt (generator w);
          generatedImage := generatedImage (generator w);
          isGenerating := false;
          error := errorMessage_of e;
          isDragging := isDragging (generator w) |};
     sent := (sent w ++ requests)%list;
     console := (console w ++ [e])%list |}.

(** The world a generation that produced [url] leaves behind. *)
Definition succeeded (w : World) (requests : list Request) (url : value) : World :=
  {| app := app w; keyInput := keyInput w;
     generator :=
       {| uploadedImages := uploadedImages (generator w);
          prompt := prompt (generator w);
          generatedImage := url;
          isGenerating := false;
          error := "";
          isDragging := isDragging (generator w) |};
     sent := (sent w ++ requests)%list;
     console := console w |}.

(** The guard of [generateImage]: at least one uploaded image, and a
    prompt that is not empty once trimmed. *)
Definition can_generate (s : ImageGeneratorState) : Prop :=
  uploadedImages s <> [] /\ trim (prompt s) <> "".

End Handlers.

(** ** The rest of the interface

    The handlers and the render conditions of the two screens that the
    sections above leave out: the Enter key and the button of the entry
    screen, the drop zone and the file picker, the download link, and the
    conditions under which the buttons are enabled or shown. *)
From Stdlib Require Import Permutation.

Section Interface.
Context {E : Engine}.
Local Open Scope eff_scope.

(** *** APIKeyInput *)

(** [onChange={(e) => setApiKey(e.target.value)}] of the key input. *)
Definition setInputApiKey (text : string) : Eff unit :=
  modify_keyInput (fun s =>
    {| input_apiKey := text; isValidating := isValidating s;
       validationError := validationError s |}).

(** [if (e.key === 'Enter') validateAPIKey()]. *)
Definition handleKeyPress (key : string) (net : Network)
    (onAPIKeyValidated : string -> Eff unit) : Eff unit :=
  if String.eqb key "Enter" then validateAPIKey net onAPIKeyValidated else ret tt.

(** [disabled={isValidating || !apiKey.trim()}] of the validate button. *)
Definition validate_disabled (s : APIKeyInputState) : bool :=
  isValidating s || negb (string_truthy (trim (input_apiKey s))).

(** *** ImageGenerator: drag, drop and pick *)

Definition setIsDragging (b : bool) : Eff unit :=
  modify_generator (fun s =>
    {| uploadedImages := uploadedImages s; prompt := prompt s;
       generatedImage := generatedImage s; isGenerating := isGenerating s;
       error := error s; isDragging := b |}).

Definition handleDragOver : Eff unit := setIsDragging true.

Definition handleDragLeave : Eff unit := setIsDragging false.

(** A file as the handlers see it: its MIME type, and what reading it as
    a data URL gives, [None] when the read fails (no [onload] then). *)
Record File : Type := {
  file_type : string;
  file_result : option string
}.

(** [file.type.startsWith('image/')]. *)
Definition is_image (file : File) : bool := String.prefix "image/" (file_type file).

(** [handleFileUpload] up to [reader.readAsDataURL(file)]: the value is
    the list of reads started, the file itself or none. *)
Definition handleFileUpload (file : File) : Eff (list File) :=
  if negb (is_image file) then
    setError "Please upload image files only" ;;
    ret []
  else
    ret [file].

(** [reader.onload]: the image is appended to the sequence as it is at
    that time, and the error is cleared. *)
Definition reader_onload (newImage : string) : Eff unit :=
  setUploadedImages (fun prev => (prev ++ [newImage])%list) ;;
  setError "".

(** The reads of [reads] settle one after the other in the order of the
    list; a read that succeeds fires [onload] with its data URL. *)
Fixpoint settle (reads : list File) : Eff unit :=
  match reads with
  | [] => ret tt
  | file :: rest =>
      match file_result file with
      | Some newImage => reader_onload newImage
      | None => ret tt
      end ;;
      settle rest
  end.

(** The data URLs the reads of [reads] that succeed give, in order. *)
Definition data_urls (reads : list File) : list string :=
  flat_map (fun file => match file_result file with
                        | Some newImage => [newImage]
                        | None => []
                        end) reads.

(** [files.forEach(f)], the reads started collected in order. *)
Fixpoint forEach (f : File -> Eff (list File)) (files : list File) : Eff (list File) :=
  match files with
  | [] => ret []
  | file :: rest =>
      started <- f file ;;
      more <- forEach f rest ;;
      ret (started ++ more)%list
  end.

(** [onDrop]: the files of [e.dataTransfer.files]. *)
Definition handleDrop (files : list File) : Eff (list File) :=
  setIsDragging false ;;
  forEach (fun file => if is_image file then handleFileUpload file else ret []) files.

(** [onChange] of the file input: [e.target.files] is a list or [null]. *)
Definition handleFileChange (files : option (list File)) : Eff (list File) :=
  match files with
  | Some files => forEach handleFileUpload files
  | None => ret []
  end.

(** *** ImageGenerator: download and render conditions *)

(** The anchor [downloadImage] creates and clicks. *)
Record Link : Type := {
  href : value;
  download : string
}.

(** The value is the link clicked, if any. *)
Definition downloadImage : Eff (option Link) :=
  st <- read_generator ;;
  if truthy (generatedImage st) then
    ret (Some {| href := generatedImage st; download := "generated-image.png" |})
  else
    ret None.

(** [disabled={isGenerating || uploadedImages.length === 0 ||
    !prompt.trim()}] of the generate button. *)
Definition generate_disabled (s : ImageGeneratorState) : bool :=
  isGenerating s || Nat.eqb (length (uploadedImages s)) 0
  || negb (string_truthy (trim (prompt s))).

(** [{generatedImage && <button onClick={downloadImage}>...}]. *)
Definition download_shown (s : ImageGeneratorState) : bool :=
  truthy (generatedImage s).

(** [{error && <div>...{error}</div>}]. *)
Definition error_shown (s : ImageGeneratorState) : bool :=
  string_truthy (error s).

(** *** Credentials on the wire *)

(** The request carries a bearer credential that is not blank. *)
Definition bears_key (request : Request) : Prop :=
  exists key, trim key <> ""
    /\ header "Authorization" (req_headers request) = Some ("Bearer " ++ key).

(** The key [App] holds, if any, is not blank, and so is the credential
    of every request issued so far. *)
Definition credentials_sound (w : World) : Prop :=
  (forall key, app_apiKey (app w) = Some key -> trim key <> "")
  /\ (forall request, In request (sent w) -> bears_key request).

End Interface.

(** ** Concrete worlds and networks

    Inputs on which the handlers are run below, on the engine [v8]. *)
Section Fixtures.
Local Existing Instance v8.

Definition fox_image : string := "data:image/png;base64,iVBORw0KGgo=".
Definition owl_image : string := "data:image/png;base64,R0lGODlhAQ==".
Definition elk_image : string := "data:image/jpeg;base64,/9j/4AAQSkZJ".

Definition world_of (a : AppState) (k : APIKeyInputState) (g : ImageGeneratorState)
    : World :=
  {| app := a; keyInput := k; generator := g; sent := []; console := [] |}.

(** The workspace with one image, a prompt and an earlier result. *)
Definition ready_state : ImageGeneratorState :=
  {| uploadedImages := [fox_image]; prompt := "a fox in the snow";
     generatedImage := VString "https://images.example/earlier.png";
     isGenerating := false; error := ""; isDragging := false |}.

Definition ready : World :=
  world_of {| app_apiKey := Some "sk-test" |} APIKeyInput_initial ready_state.

(** The workspace with three images and a prompt of blanks only. *)
Definition blank_prompt : World :=
  world_of {| app_apiKey := Some "sk-test" |} APIKeyInput_initial
    {| uploadedImages := [fox_image; owl_image; elk_image]; prompt := "  ";
       generatedImage := VString "https://images.example/earlier.png";
       isGenerating := false; error := ""; isDragging := false |}.

(** The entry screen with a key typed in, padded with a blank on each
    side, and with blanks only. *)
Definition key_typed : World :=
  world_of App_initial
    {| input_apiKey := " sk-test "; isValidating := false; validationError := "" |}
    ImageGenerator_initial.

Definition key_blank : World :=
  world_of App_initial
    {| input_apiKey := "   "; isValidating := false; validationError := "" |}
    ImageGenerator_initial.

(** A network that answers the images endpoint with [image] and every
    other request with [other]. *)
Definition network (other image : Result Response) : Network := fun request =>
  if String.eqb (req_url request) imagesEndpoint then image else other.

Definition completion (text : string) : Response :=
  {| status := 200; statusText := "OK";
     json := Ok (VObject [("choices",
       VArray [VObject [("message",
         VObject [("role", VString "assistant"); ("content", VString text)])]])]) |}.

Definition image_created (link : string) : Response :=
  {| status := 200; statusText := "OK";
     json := Ok (VObject [("data", VArray [VObject [("url", VString link)]])]) |}.

Definition models_listed : Response :=
  {| status := 200; statusText := "OK";
     json := Ok (VObject [("object", VString "list"); ("data", VArray [])]) |}.

(** A provider rejection with a message in its payload. *)
Definition rejected (code : nat) (line message : string) : Response :=
  {| status := code; statusText := line;
     json := Ok (VObject [("error", VObject [("message", VString message)])]) |}.

(** A provider rejection whose payload carries no message. *)
Definition rejected_bare (code : nat) (line : string) : Response :=
  {| status := code; statusText := line; json := Ok (VObject []) |}.

(** A gateway's answer: a status line and a body that is not JSON, so
    that [json()] rejects with the parser's [SyntaxError]. *)
Definition bad_gateway : Response :=
  {| status := 502; statusText := "Bad Gateway";
     json := Throw (ErrorObject "Unexpected token '<', <html>... is not valid JSON") |}.

Definition refined_text : string :=
  "A red fox crossing a snowy clearing at dawn, soft light, oil painting".

Definition net_success : Network :=
  network (Ok (completion refined_text))
          (Ok (image_created "https://images.example/fresh.png")).

Definition net_gateway : Network :=
  network (Ok bad_gateway) (Ok (image_created "https://images.example/fresh.png")).

Definition net_unauthorized : Network :=
  network (Ok (rejected 401 "Unauthorized" "Incorrect API key provided"))
          (Ok (image_created "https://images.example/fresh.png")).

Definition net_refused : Network :=
  network (Ok (completion refined_text))
          (Ok (rejected 400 "Bad Request" "Your request was rejected by the safety system")).

Definition net_models : Network := network (Ok models_listed) (Ok models_listed).

End Fixtures.

(** More inputs: files, failing networks and callbacks, odd bodies. *)
Section MoreFixtures.
Local Existing Instance v8.

Definition png_file : File := {| file_type := "image/png"; file_result := Some fox_image |}.
Definition jpeg_file : File := {| file_type := "image/jpeg"; file_result := Some elk_image |}.
Definition text_file : File :=
  {| file_type := "text/plain"; file_result := Some "data:text/plain;base64,aGk=" |}.
Definition broken_png : File := {| file_type := "image/png"; file_result := None |}.

(** No response at all. *)
Definition net_down : Network := fun _ => Throw (ErrorObject "Failed to fetch").

(** The refinement is answered, the images endpoint is unreachable. *)
Definition net_image_down : Network :=
  network (Ok (completion refined_text)) (Throw (ErrorObject "Failed to fetch")).

(** A 200 answer with no completion in it. *)
Definition completion_empty : Response :=
  {| status := 200; statusText := "OK"; json := Ok (VObject [("choices", VArray [])]) |}.

Definition net_completion_empty : Network :=
  network (Ok completion_empty) (Ok (image_created "https://images.example/fresh.png")).

(** A 200 answer whose first datum has no [url], and one with no datum. *)
Definition image_without_url : Response :=
  {| status := 200; statusText := "OK";
     json := Ok (VObject [("data", VArray [VObject [("b64_json", VString "iVBORw0KGgo=")]])]) |}.

Definition image_without_data : Response :=
  {| status := 200; statusText := "OK"; json := Ok (VObject [("data", VArray [])]) |}.

Definition net_image_without_url : Network :=
  network (Ok (completion refined_text)) (Ok image_without_url).

Definition net_image_without_data : Network :=
  network (Ok (completion refined_text)) (Ok image_without_data).

(** The entry screen with a key typed in while a validation is under way. *)
Definition key_validating : World :=
  world_of App_initial
    {| input_apiKey := "sk-test"; isValidating := true; validationError := "" |}
    ImageGenerator_initial.

(** A callback that throws. *)
Definition failing_callback : string -> Eff unit :=
  fun _ => throw (ErrorObject "parent failed").

(** The workspace with an error on display and no image yet. *)
Definition empty_with_error : World :=
  world_of {| app_apiKey := Some "sk-test" |} APIKeyInput_initial
    {| uploadedImages := []; prompt := "a fox";
       generatedImage := VNull; isGenerating := false;
       error := "Please upload image files only"; isDragging := true |}.

(** A provider rejection whose [error.message] is an empty array: a
    truthy value whose string form is the empty string. *)
Definition rejected_empty_array : Response :=
  {| status := 400; statusText := "Bad Request";
     json := Ok (VObject [("error", VObject [("message", VArray [])])]) |}.

Definition net_refinement_empty_array : Network :=
  network (Ok rejected_empty_array) (Ok (image_created "https://images.example/fresh.png")).

Definition net_synthesis_empty_array : Network :=
  network (Ok (completion refined_text)) (Ok rejected_empty_array).

End MoreFixtures.

(** * Properties *)

Section Properties.
Context {E : Engine}.
Local Open Scope eff_scope.

(** ** Strings and lists *)

Lemma string_truthy_true (s : string) : s <> "" -> string_truthy s = true.
Proof. destruct s; [congruence | reflexivity]. Qed.

Lemma string_truthy_false (s : string) : s = "" -> string_truthy s = false.
Proof. intros ->. reflexivity. Qed.

Lemma trim_nonempty (s : string) : trim s <> "" -> s <> "".
Proof. intros H ->. apply H. reflexivity. Qed.

Lemma length_eqb_0 {A} (l : list A) : Nat.eqb (length l) 0 = true <-> l = [].
Proof. destruct l; simpl; split; congruence. Qed.

(** An index that is none of [i], [i+1], ... removes nothing. *)
Lemma filter_from_miss {A} (l : list A) (i index : Z) :
  (index < i \/ i + Z.of_nat (length l) <= index)%Z ->
  filter_from (fun _ j => negb (Z.eqb j index)) i l = l.
Proof.
  revert i. induction l as [|x l IH]; intros i H; simpl; [reflexivity|].
  simpl length in H.
  destruct (Z.eqb_spec i index) as [Heq|Hne]; simpl; [lia|].
  f_equal. apply IH. lia.
Qed.

(** The index of the element at position [k], counting from [i], removes
    that element and no other. *)
Lemma filter_from_hit {A} (l : list A) (i index : Z) (k : nat) :
  index = (i + Z.of_nat k)%Z ->
  k < length l ->
  filter_from (fun _ j => negb (Z.eqb j index)) i l
  = (firstn k l ++ skipn (S k) l)%list.
Proof.
  revert i k. induction l as [|x l IH]; intros i k Hidx H; simpl in H; [lia|].
  destruct k as [|k].
  - assert (index = i) as -> by lia.
    simpl. rewrite Z.eqb_refl. simpl.
    apply filter_from_miss. lia.
  - change (firstn (S k) (x :: l) ++ skipn (S (S k)) (x :: l))%list
      with (x :: (firstn k l ++ skipn (S k) l))%list.
    simpl filter_from.
    destruct (Z.eqb_spec i index) as [Heq|Hne]; [lia|]. simpl.
    f_equal. apply IH; lia.
Qed.

(** Position by position: the elements before [k] stay where they are,
    the elements after [k] move one position down. *)
Lemma nth_error_without {A} (l : list A) (k j : nat) :
  k < length l ->
  nth_error (firstn k l ++ skipn (S k) l) j
  = nth_error l (if Nat.ltb j k then j else S j).
Proof.
  intros Hk.
  assert (Hlen : length (firstn k l) = k) by (rewrite length_firstn; lia).
  destruct (Nat.ltb_spec j k) as [Hlt|Hge].
  - rewrite nth_error_app1 by lia.
    rewrite nth_error_firstn.
    destruct (Nat.ltb_spec j k); [reflexivity | lia].
  - rewrite nth_error_app2 by lia.
    rewrite nth_error_skipn, Hlen. f_equal. lia.
Qed.

(** ** Removing and resetting *)

(** C7: removing the image at a valid index [i] of a sequence of [n]
    images leaves the images before [i] followed by the images after [i],
    in their order: [n - 1] images, the one at position [j] being the one
    that was at [j] when [j] is below [i], and at [j + 1] otherwise. *)
Theorem removeImage_valid_index (w : World) (i : Z) :
  (0 <= i < Z.of_nat (length (uploadedImages (generator w))))%Z ->
  let images := uploadedImages (generator w) in
  let images' := uploadedImages (generator (after (removeImage i) w)) in
  images' = (firstn (Z.to_nat i) images ++ skipn (S (Z.to_nat i)) images)%list
  /\ length images' = length images - 1
  /\ (forall j : nat,
        nth_error images' j
        = nth_error images (if Nat.ltb j (Z.to_nat i) then j else S j)).
Proof.
  intros Hi images images'.
  assert (Hk : Z.to_nat i < length images) by (subst images; lia).
  assert (Heq : images' = (firstn (Z.to_nat i) images ++ skipn (S (Z.to_nat i)) images)%list).
  { subst images'. cbn. fold images. unfold filter_indexed.
    apply filter_from_hit; [lia | exact Hk]. }
  split; [exact Heq|]. split.
  - rewrite Heq, length_app, length_firstn, length_skipn. lia.
  - intros j. rewrite Heq. apply nth_error_without. exact Hk.
Qed.

(** C9: an index below zero or not below the length of the sequence
    removes nothing: the sequence stays as it is. *)
Theorem removeImage_index_out_of_range (w : World) (i : Z) :
  (i < 0 \/ Z.of_nat (length (uploadedImages (generator w))) <= i)%Z ->
  uploadedImages (generator (after (removeImage i) w)) = uploadedImages (generator w).
Proof.
  intros Hi. cbn. unfold filter_indexed. apply filter_from_miss. lia.
Qed.

(** C6: from every world, the reset handler completes and leaves no
    uploaded image, the empty prompt, no generated image and the empty
    error message, all four at once; nothing else changes. *)
Theorem refreshGeneration_resets_all (w : World) :
  outcome refreshGeneration w = Ok tt
  /\ uploadedImages (generator (after refreshGeneration w)) = []
  /\ prompt (generator (after refreshGeneration w)) = ""
  /\ generatedImage (generator (after refreshGeneration w)) = VNull
  /\ error (generator (after refreshGeneration w)) = ""
  /\ isGenerating (generator (after refreshGeneration w)) = isGenerating (generator w)
  /\ isDragging (generator (after refreshGeneration w)) = isDragging (generator w)
  /\ app (after refreshGeneration w) = app w
  /\ keyInput (after refreshGeneration w) = keyInput w
  /\ sent (after refreshGeneration w) = sent w
  /\ console (after refreshGeneration w) = console w.
Proof. repeat split. Qed.

(** ** The guards *)

Lemma generateImage_guard_fails (apiKey : string) (net : Network) (w : World) :
  uploadedImages (generator w) = [] \/ trim (prompt (generator w)) = "" ->
  generateImage apiKey net w
  = setError "Please upload at least one image and enter a prompt" w.
Proof.
  intros H. unfold generateImage, bind, read_generator.
  destruct H as [H|H]; rewrite H; [reflexivity|].
  rewrite orb_true_r. reflexivity.
Qed.

Lemma generateImage_guard_passes (apiKey : string) (net : Network) (w : World) :
  can_generate (generator w) ->
  generateImage apiKey net w
  = try_catch_finally
      (generateImage_try apiKey net (uploadedImages (generator w)) (prompt (generator w)))
      generateImage_catch
      (setIsGenerating false)
      (after (setIsGenerating true ;; setError "") w).
Proof.
  intros [Himg Hprompt]. unfold generateImage, bind, read_generator.
  destruct (Nat.eqb (length (uploadedImages (generator w))) 0) eqn:Hlen.
  - apply length_eqb_0 in Hlen. contradiction.
  - rewrite (string_truthy_true _ Hprompt). reflexivity.
Qed.

(** C2: with no uploaded image, or with a prompt that is empty once
    trimmed, [generateImage] completes having set the validation message
    and nothing else: no request is handed to [fetch], and the uploaded
    images, the prompt and the generated image are as before. *)
Theorem generateImage_missing_input (apiKey : string) (net : Network) (w : World) :
  uploadedImages (generator w) = [] \/ trim (prompt (generator w)) = "" ->
  let w' := after (generateImage apiKey net) w in
  outcome (generateImage apiKey net) w = Ok tt
  /\ error (generator w') = "Please upload at least one image and enter a prompt"
  /\ sent w' = sent w
  /\ issued w w' = []
  /\ uploadedImages (generator w') = uploadedImages (generator w)
  /\ prompt (generator w') = prompt (generator w)
  /\ generatedImage (generator w') = generatedImage (generator w)
  /\ isGenerating (generator w') = isGenerating (generator w).
Proof.
  intros H w'. subst w'. unfold after, outcome, issued.
  rewrite (generateImage_guard_fails apiKey net w H). cbn.
  rewrite skipn_all. repeat split.
Qed.

(** C8: with a key that is empty once trimmed, [validateAPIKey] completes
    having set the input-required message and nothing else: no request is
    handed to [fetch], and the callback that would propagate the key is
    not run, whatever it is, so the key [App] holds is as before. *)
Theorem validateAPIKey_missing_input (net : Network)
    (onAPIKeyValidated : string -> Eff unit) (w : World) :
  trim (input_apiKey (keyInput w)) = "" ->
  validateAPIKey net onAPIKeyValidated w
  = (Ok tt,
     {| app := app w;
        keyInput := {| input_apiKey := input_apiKey (keyInput w);
                       isValidating := isValidating (keyInput w);
                       validationError := "Please enter your OpenAI API key" |};
        generator := generator w;
        sent := sent w;
        console := console w |})
  /\ issued w (after (validateAPIKey net onAPIKeyValidated) w) = []
  /\ app_apiKey (app (after (validateAPIKey net onAPIKeyValidated) w))
     = app_apiKey (app w).
Proof.
  intros H.
  assert (Hrun : validateAPIKey net onAPIKeyValidated w
                 = setValidationError "Please enter your OpenAI API key" w).
  { unfold validateAPIKey, bind, read_keyInput. rewrite H. reflexivity. }
  unfold after, issued. rewrite Hrun. cbn. rewrite skipn_all. repeat split.
Qed.

(** ** The try, catch and finally blocks of [generateImage] *)

(** Whatever the [try] block does, the statement completes: an exception
    of the block is handled by the [catch] block, and the [finally] block
    clears the flag. *)
Lemma generateImage_caught (body : Eff unit) (w1 w2 : World) (e : exn) :
  body w1 = (Throw e, w2) ->
  try_catch_finally body generateImage_catch (setIsGenerating false) w1
  = (Ok tt, after (setIsGenerating false) (after (generateImage_catch e) w2)).
Proof. intros H. unfold try_catch_finally. rewrite H. reflexivity. Qed.

Lemma generateImage_completed (body : Eff unit) (w1 w2 : World) :
  body w1 = (Ok tt, w2) ->
  try_catch_finally body generateImage_catch (setIsGenerating false) w1
  = (Ok tt, after (setIsGenerating false) w2).
Proof. intros H. unfold try_catch_finally. rewrite H. reflexivity. Qed.

(** The two blocks that run on a rejection always throw. *)
Lemma throwVisionError_throws (r : Response) :
  exists e, forall w, throwVisionError r w = (Throw e, w).
Proof.
  unfold throwVisionError, bind, lift, throw.
  destruct (json r) as [d|e]; [|eauto].
  destruct (error_message_of d) as [m|e]; [|eauto].
  destruct (new_Error _) as [e|e]; eauto.
Qed.

Lemma throwImageError_throws (r : Response) :
  exists e, forall w, throwImageError r w = (Throw e, w).
Proof.
  unfold throwImageError, bind, lift, throw.
  destruct (json r) as [d|e]; [|eauto].
  destruct (error_message_of d) as [m|e]; [|eauto].
  destruct (new_Error _) as [e|e]; eauto.
Qed.

Lemma new_Error_truthy (m : value) (s : string) :
  truthy m = true -> ToString m = Ok s -> new_Error m = Ok (ErrorObject s).
Proof.
  intros Ht Hs. unfold new_Error. rewrite Hs.
  destruct m; try reflexivity. discriminate Ht.
Qed.

Lemma new_Error_truthy_throws (m : value) (e : exn) :
  truthy m = true -> ToString m = Throw e -> new_Error m = Throw e.
Proof.
  intros Ht Hs. unfold new_Error. rewrite Hs.
  destruct m; try reflexivity. discriminate Ht.
Qed.

(** What the rejection blocks throw, case by case: the exception of
    reading the body; else the provider's message when it is truthy (or
    the exception of converting it to a string); else the fallback. *)
Lemma rejection_unreadable (fallback : value) (body : Result value) (w : World) (e : exn) :
  body = Throw e \/ (exists d, body = Ok d /\ error_message_of d = Throw e) ->
  (errorData <- lift body ;;
   msg <- lift (error_message_of errorData) ;;
   err <- lift (new_Error (or_else msg fallback)) ;;
   throw err) w = (@Throw _ unit e, w).
Proof.
  intros [->|[d [-> H]]]; unfold bind, lift, throw; [reflexivity|].
  rewrite H. reflexivity.
Qed.

Lemma rejection_message (fallback : value) (body : Result value) (w : World)
    (d m : value) :
  body = Ok d -> error_message_of d = Ok m -> truthy m = true ->
  (errorData <- lift body ;;
   msg <- lift (error_message_of errorData) ;;
   err <- lift (new_Error (or_else msg fallback)) ;;
   throw err) w
  = (match ToString m with
     | Ok s => @Throw _ unit (ErrorObject s)
     | Throw e => Throw e
     end, w).
Proof.
  intros -> Hm Ht. unfold bind, lift, throw, or_else. rewrite Hm, Ht.
  destruct (ToString m) as [s|e] eqn:Hs.
  - rewrite (new_Error_truthy m s Ht Hs). reflexivity.
  - rewrite (new_Error_truthy_throws m e Ht Hs). reflexivity.
Qed.

Lemma rejection_fallback (fallback : string) (body : Result value) (w : World)
    (d m : value) :
  body = Ok d -> error_message_of d = Ok m -> truthy m = false ->
  (errorData <- lift body ;;
   msg <- lift (error_message_of errorData) ;;
   err <- lift (new_Error (or_else msg (VString fallback))) ;;
   throw err) w
  = (@Throw _ unit (ErrorObject fallback), w).
Proof.
  intros -> Hm Ht. unfold bind, lift, throw, or_else. rewrite Hm, Ht. reflexivity.
Qed.

Lemma issued_logged (w w' : World) (requests : list Request) :
  sent w' = (sent w ++ requests)%list -> issued w w' = requests.
Proof.
  intros H. unfold issued. rewrite H.
  rewrite skipn_app, skipn_all, Nat.sub_diag. reflexivity.
Qed.

(** The [try] block ends in one of three ways: an exception with the
    refinement request issued alone, an exception with both requests
    issued, or the generated image set with both requests issued. *)
Lemma generateImage_try_cases (apiKey : string) (net : Network)
    (images : list string) (text : string) (w1 : World) :
  let first := visionRequest apiKey images text in
  (exists e, generateImage_try apiKey net images text w1
             = (Throw e, logged w1 [first]))
  \/ (exists refined e,
        generateImage_try apiKey net images text w1
        = (Throw e, logged w1 [first; imageRequest apiKey refined]))
  \/ (exists refined url,
        generateImage_try apiKey net images text w1
        = (Ok tt, after (setGeneratedImage url)
                    (logged w1 [first; imageRequest apiKey refined]))).
Proof.
  intros first. unfold generateImage_try, bind, fetch, lift, ret. fold first.
  change {| app := app w1; keyInput := keyInput w1; generator := generator w1;
            sent := (sent w1 ++ [first])%list; console := console w1 |}
    with (logged w1 [first]).
  destruct (net first) as [rv|e]; [|left; eauto].
  assert (Hv : exists x, (if negb (ok rv) then throwVisionError rv else (fun w => (Ok tt, w)))
                 (logged w1 [first]) = (x, logged w1 [first])
               /\ (x = Ok tt \/ exists e, x = Throw e)).
  { destruct (negb (ok rv)).
    - destruct (throwVisionError_throws rv) as [e He]. rewrite He. eauto.
    - eauto. }
  destruct Hv as [x [Hx [->|[e ->]]]]; rewrite Hx; [|left; eauto].
  destruct (json rv) as [dv|e]; [|left; eauto].
  destruct (refinedPrompt_of dv) as [refined|e]; [|left; eauto].
  right. cbn [app keyInput generator sent console logged].
  rewrite <- app_assoc. cbn [List.app].
  change {| app := app w1; keyInput := keyInput w1; generator := generator w1;
            sent := (sent w1 ++ [first; imageRequest apiKey refined])%list;
            console := console w1 |}
    with (logged w1 [first; imageRequest apiKey refined]).
  set (w2 := logged w1 [first; imageRequest apiKey refined]).
  destruct (net (imageRequest apiKey refined)) as [ri|e]; [|left; exists refined, e; reflexivity].
  assert (Hi : exists x, (if negb (ok ri) then throwImageError ri else (fun w => (Ok tt, w))) w2
                 = (x, w2) /\ (x = Ok tt \/ exists e, x = Throw e)).
  { destruct (negb (ok ri)).
    - destruct (throwImageError_throws ri) as [e He]. rewrite He. eauto.
    - eauto. }
  destruct Hi as [y [Hy [->|[e ->]]]]; rewrite Hy; [|left; exists refined, e; reflexivity].
  destruct (json ri) as [di|e]; [|left; exists refined, e; reflexivity].
  destruct (url_of di) as [url|e]; [|left; exists refined, e; reflexivity].
  right. exists refined, url. reflexivity.
Qed.

(** ** Runs of [generateImage] past its guard *)

(** Every run past the guard completes, in one of three worlds. *)
Lemma generateImage_cases (apiKey : string) (net : Network) (w : World) :
  can_generate (generator w) ->
  let first := visionRequest apiKey (uploadedImages (generator w)) (prompt (generator w)) in
  (exists e, generateImage apiKey net w = (Ok tt, failed w [first] e))
  \/ (exists refined e,
        generateImage apiKey net w
        = (Ok tt, failed w [first; imageRequest apiKey refined] e))
  \/ (exists refined url,
        generateImage apiKey net w
        = (Ok tt, succeeded w [first; imageRequest apiKey refined] url)).
Proof.
  intros Hready first. rewrite (generateImage_guard_passes apiKey net w Hready).
  destruct (generateImage_try_cases apiKey net (uploadedImages (generator w))
              (prompt (generator w)) (after (setIsGenerating true ;; setError "") w))
    as [[e H]|[[refined [e H]]|[refined [url H]]]].
  - left. exists e. rewrite (generateImage_caught _ _ _ _ H). reflexivity.
  - right. left. exists refined, e. rewrite (generateImage_caught _ _ _ _ H). reflexivity.
  - right. right. exists refined, url. rewrite (generateImage_completed _ _ _ H). reflexivity.
Qed.

(** The refinement call is answered with a non-success status: the block
    under [if (!visionResponse.ok)] throws, and nothing after it runs. *)
Lemma generateImage_refinement_rejected_run (apiKey : string) (net : Network)
    (w : World) (r : Response) (e : exn) :
  can_generate (generator w) ->
  let first := visionRequest apiKey (uploadedImages (generator w)) (prompt (generator w)) in
  net first = Ok r ->
  ok r = false ->
  (forall w0, throwVisionError r w0 = (Throw e, w0)) ->
  generateImage apiKey net w = (Ok tt, failed w [first] e).
Proof.
  intros Hready first Hnet Hok Hthrow.
  rewrite (generateImage_guard_passes apiKey net w Hready).
  erewrite generateImage_caught.
  2:{ unfold generateImage_try, bind, fetch. fold first.
      rewrite Hnet, Hok. cbn [negb]. rewrite Hthrow. reflexivity. }
  reflexivity.
Qed.

(** The refinement call succeeds and the synthesis call is answered with
    a non-success status. *)
Lemma generateImage_synthesis_rejected_run (apiKey : string) (net : Network)
    (w : World) (rv ri : Response) (dv refined : value) (e : exn) :
  can_generate (generator w) ->
  let first := visionRequest apiKey (uploadedImages (generator w)) (prompt (generator w)) in
  net first = Ok rv -> ok rv = true ->
  json rv = Ok dv -> refinedPrompt_of dv = Ok refined ->
  net (imageRequest apiKey refined) = Ok ri -> ok ri = false ->
  (forall w0, throwImageError ri w0 = (Throw e, w0)) ->
  generateImage apiKey net w
  = (Ok tt, failed w [first; imageRequest apiKey refined] e).
Proof.
  intros Hready first Hnet Hok Hjson Hrefined Hnet2 Hok2 Hthrow.
  rewrite (generateImage_guard_passes apiKey net w Hready).
  erewrite generateImage_caught.
  2:{ unfold generateImage_try, bind, fetch, lift, ret. fold first.
      rewrite Hnet, Hok. cbn [negb]. rewrite Hjson, Hrefined, Hnet2, Hok2.
      cbn [negb]. rewrite Hthrow. reflexivity. }
  unfold failed, after. cbn. rewrite <- app_assoc. reflexivity.
Qed.

(** Both calls succeed. *)
Lemma generateImage_success_run (apiKey : string) (net : Network)
    (w : World) (rv ri : Response) (dv refined di url : value) :
  can_generate (generator w) ->
  let first := visionRequest apiKey (uploadedImages (generator w)) (prompt (generator w)) in
  net first = Ok rv -> ok rv = true ->
  json rv = Ok dv -> refinedPrompt_of dv = Ok refined ->
  net (imageRequest apiKey refined) = Ok ri -> ok ri = true ->
  json ri = Ok di -> url_of di = Ok url ->
  generateImage apiKey net w
  = (Ok tt, succeeded w [first; imageRequest apiKey refined] url).
Proof.
  intros Hready first Hnet Hok Hjson Hrefined Hnet2 Hok2 Hjson2 Hurl.
  rewrite (generateImage_guard_passes apiKey net w Hready).
  erewrite generateImage_completed.
  2:{ unfold generateImage_try, bind, fetch, lift, ret. fold first.
      rewrite Hnet, Hok. cbn [negb]. rewrite Hjson, Hrefined, Hnet2, Hok2.
      cbn [negb]. rewrite Hjson2, Hurl. reflexivity. }
  unfold succeeded, after. cbn. rewrite <- app_assoc. reflexivity.
Qed.

(** ** Generation *)

(** C1, amended: past the guard, when the refinement call is answered
    with a non-success status, that request is the only one issued, so the
    images endpoint is never called, and the error shown is: the
    provider's [error.message] as a string when the body is JSON that
    carries a truthy one; the line [Vision API error: <status>
    <statusText>] when the body is JSON that carries none; and the message
    of the exception when reading the body or the message throws (the
    body is not JSON, or is [null], or the message has no string form). *)
Theorem generateImage_refinement_rejected (apiKey : string) (net : Network)
    (w : World) (r : Response) :
  can_generate (generator w) ->
  net (visionRequest apiKey (uploadedImages (generator w)) (prompt (generator w))) = Ok r ->
  ok r = false ->
  let first := visionRequest apiKey (uploadedImages (generator w)) (prompt (generator w)) in
  let w' := after (generateImage apiKey net) w in
  issued w w' = [first]
  /\ (forall request, In request (issued w w') -> req_url request <> imagesEndpoint)
  /\ (forall d m s,
        json r = Ok d -> error_message_of d = Ok m -> truthy m = true ->
        ToString m = Ok s ->
        error (generator w') = s)
  /\ (forall d m,
        json r = Ok d -> error_message_of d = Ok m -> truthy m = false ->
        error (generator w')
        = "Vision API error: " ++ nat_to_string (status r) ++ " " ++ statusText r)
  /\ (forall e, json r = Throw e -> error (generator w') = errorMessage_of e)
  /\ (forall d e,
        json r = Ok d -> error_message_of d = Throw e ->
        error (generator w') = errorMessage_of e)
  /\ (forall d m e,
        json r = Ok d -> error_message_of d = Ok m -> truthy m = true ->
        ToString m = Throw e ->
        error (generator w') = errorMessage_of e).
Proof.
  intros Hready Hnet Hok first w'.
  destruct (throwVisionError_throws r) as [e0 Hthrow].
  pose proof (generateImage_refinement_rejected_run apiKey net w r e0
                Hready Hnet Hok Hthrow) as Hrun.
  assert (Hw' : w' = failed w [first] e0) by (subst w'; unfold after; rewrite Hrun; reflexivity).
  assert (Hissued : issued w w' = [first]) by (apply issued_logged; rewrite Hw'; reflexivity).
  assert (Herror : error (generator w') = errorMessage_of e0) by (rewrite Hw'; reflexivity).
  assert (Hsame : forall e, throwVisionError r w = (Throw e, w) -> e0 = e).
  { intros e He. rewrite Hthrow in He. congruence. }
  rewrite Hissued, Herror. clear Hrun Hw' Hissued Herror.
  split; [reflexivity|]. split.
  { intros request [<-|[]]. discriminate. }
  repeat split.
  - intros d m s Hd Hm Ht Hs.
    rewrite (Hsame (ErrorObject s)); [reflexivity|].
    unfold throwVisionError. erewrite rejection_message by eassumption.
    rewrite Hs. reflexivity.
  - intros d m Hd Hm Ht.
    rewrite (Hsame (ErrorObject ("Vision API error: " ++ nat_to_string (status r)
                                 ++ " " ++ statusText r))); [reflexivity|].
    unfold throwVisionError. erewrite rejection_fallback by eassumption. reflexivity.
  - intros e He. rewrite (Hsame e); [reflexivity|].
    unfold throwVisionError. apply rejection_unreadable. left. exact He.
  - intros d e Hd He. rewrite (Hsame e); [reflexivity|].
    unfold throwVisionError. apply rejection_unreadable. right. eauto.
  - intros d m e Hd Hm Ht Hs. rewrite (Hsame e); [reflexivity|].
    unfold throwVisionError. erewrite rejection_message by eassumption.
    rewrite Hs. reflexivity.
Qed.

(** C3: past the guard, when both calls are answered with a success
    status and their bodies yield a refined prompt and a value at
    [data[0].url], that value is the generated image afterwards, whatever
    it was before; the flag is down and no error is shown. *)
Theorem generateImage_success (apiKey : string) (net : Network) (w : World)
    (rv ri : Response) (dv refined di url : value) :
  can_generate (generator w) ->
  net (visionRequest apiKey (uploadedImages (generator w)) (prompt (generator w))) = Ok rv ->
  ok rv = true ->
  json rv = Ok dv -> refinedPrompt_of dv = Ok refined ->
  net (imageRequest apiKey refined) = Ok ri ->
  ok ri = true ->
  json ri = Ok di -> url_of di = Ok url ->
  let w' := after (generateImage apiKey net) w in
  generatedImage (generator w') = url
  /\ isGenerating (generator w') = false
  /\ error (generator w') = ""
  /\ outcome (generateImage apiKey net) w = Ok tt.
Proof.
  intros Hready Hnet Hok Hjson Hrefined Hnet2 Hok2 Hjson2 Hurl w'.
  subst w'. unfold after, outcome.
  rewrite (generateImage_success_run apiKey net w rv ri dv refined di url
             Hready Hnet Hok Hjson Hrefined Hnet2 Hok2 Hjson2 Hurl).
  repeat split.
Qed.

(** C5, amended: past the guard, when the refinement call succeeds and
    yields a refined prompt, and the synthesis call is answered with a
    non-success status, the generated image, the uploaded images and the prompt are
    as before, and the error shown is the message of the exception the
    rejection block throws: the provider's [error.message] as a string
    when the body carries a truthy one, [Failed to generate image] when
    it carries none, and in both cases, the message being a string, not
    the empty string. *)
Theorem generateImage_synthesis_rejected (apiKey : string) (net : Network)
    (w : World) (rv ri : Response) (dv refined : value) :
  can_generate (generator w) ->
  net (visionRequest apiKey (uploadedImages (generator w)) (prompt (generator w))) = Ok rv ->
  ok rv = true ->
  json rv = Ok dv -> refinedPrompt_of dv = Ok refined ->
  net (imageRequest apiKey refined) = Ok ri ->
  ok ri = false ->
  let w' := after (generateImage apiKey net) w in
  generatedImage (generator w') = generatedImage (generator w)
  /\ uploadedImages (generator w') = uploadedImages (generator w)
  /\ prompt (generator w') = prompt (generator w)
  /\ isGenerating (generator w') = false
  /\ (exists e, throwImageError ri w = (Throw e, w)
                /\ error (generator w') = errorMessage_of e
                /\ console w' = (console w ++ [e])%list)
  /\ (forall d m s,
        json ri = Ok d -> error_message_of d = Ok m -> truthy m = true ->
        ToString m = Ok s ->
        error (generator w') = s)
  /\ (forall d m,
        json ri = Ok d -> error_message_of d = Ok m -> truthy m = false ->
        error (generator w') = "Failed to generate image")
  /\ (forall d m,
        json ri = Ok d -> error_message_of d = Ok m ->
        truthy m = false \/ (exists s, m = VString s) ->
        error (generator w') <> "").
Proof.
  intros Hready Hnet Hok Hjson Hrefined Hnet2 Hok2 w'.
  destruct (throwImageError_throws ri) as [e0 Hthrow].
  pose proof (generateImage_synthesis_rejected_run apiKey net w rv ri dv refined e0
                Hready Hnet Hok Hjson Hrefined Hnet2 Hok2 Hthrow) as Hrun.
  assert (Hw' : w' = failed w [visionRequest apiKey (uploadedImages (generator w))
                                 (prompt (generator w));
                               imageRequest apiKey refined] e0)
    by (subst w'; unfold after; rewrite Hrun; reflexivity).
  assert (Hsame : forall e, throwImageError ri w = (Throw e, w) -> e0 = e).
  { intros e He. rewrite Hthrow in He. congruence. }
  rewrite Hw'. cbn [failed generator generatedImage uploadedImages prompt isGenerating
                    error console].
  repeat split.
  - exists e0. repeat split. apply Hthrow.
  - intros d m s Hd Hm Ht Hs.
    rewrite (Hsame (ErrorObject s)); [reflexivity|].
    unfold throwImageError. erewrite rejection_message by eassumption.
    rewrite Hs. reflexivity.
  - intros d m Hd Hm Ht.
    rewrite (Hsame (ErrorObject "Failed to generate image")); [reflexivity|].
    unfold throwImageError. erewrite rejection_fallback by eassumption. reflexivity.
  - intros d m Hd Hm Hcase.
    destruct (truthy m) eqn:Ht.
    + destruct Hcase as [Hf|[s ->]]; [discriminate|].
      rewrite (Hsame (ErrorObject s)).
      * cbn. destruct s; [discriminate Ht | discriminate].
      * unfold throwImageError.
        erewrite rejection_message by eassumption. reflexivity.
    + rewrite (Hsame (ErrorObject "Failed to generate image")); [discriminate|].
      unfold throwImageError. erewrite rejection_fallback by eassumption. reflexivity.
Qed.

(** ** The credential *)

Lemma guard_decides (s : ImageGeneratorState) :
  can_generate s \/ (uploadedImages s = [] \/ trim (prompt s) = "").
Proof.
  unfold can_generate.
  destruct (uploadedImages s); [right; left; reflexivity|].
  destruct (trim (prompt s)); [right; right; reflexivity|].
  left. split; discriminate.
Qed.

(** Every request [generateImage] issues carries the key it was given,
    as given, after [Bearer ]. *)
Lemma generateImage_requests_bear_key (apiKey : string) (net : Network)
    (w : World) (request : Request) :
  In request (issued w (after (generateImage apiKey net) w)) ->
  req_headers request = bearer_headers apiKey.
Proof.
  destruct (guard_decides (generator w)) as [Hready|Hnot].
  - unfold after.
    destruct (generateImage_cases apiKey net w Hready)
      as [[e H]|[[refined [e H]]|[refined [url H]]]];
      rewrite H; cbn [snd]; erewrite issued_logged by reflexivity;
      cbn [In]; intuition (subst; reflexivity).
  - unfold after. rewrite (generateImage_guard_fails apiKey net w Hnot).
    rewrite (issued_logged w _ []); [intros []|].
    cbn. symmetry. apply app_nil_r.
Qed.

(** C10: when the key typed in is not empty once trimmed and the listing
    call is answered with a success status, the key [App] holds afterwards
    is the string typed in, untrimmed; it is the string sent after
    [Bearer ] in the validation request, and in every request a later
    generation issues while [App] holds it. *)
Theorem validateAPIKey_propagates_exact_key (net : Network) (w : World) (r : Response) :
  trim (input_apiKey (keyInput w)) <> "" ->
  net (modelsRequest (input_apiKey (keyInput w))) = Ok r ->
  ok r = true ->
  let key := input_apiKey (keyInput w) in
  let w' := after (validateAPIKey net handleAPIKeyValidated) w in
  app_apiKey (app w') = Some key
  /\ App_render (app w') = Workspace key
  /\ issued w w' = [modelsRequest key]
  /\ header "Authorization" (req_headers (modelsRequest key)) = Some ("Bearer " ++ key)
  /\ (forall (net2 : Network) (w2 : World) (request : Request),
        app w2 = app w' ->
        In request (issued w2 (after (App_generateImage net2) w2)) ->
        header "Authorization" (req_headers request) = Some ("Bearer " ++ key)).
Proof.
  intros Htrim Hnet Hok key w'. fold key in Htrim, Hnet.
  assert (Hrun : validateAPIKey net handleAPIKeyValidated w
                 = (Ok tt,
                    {| app := {| app_apiKey := Some key |};
                       keyInput := {| input_apiKey := key; isValidating := false;
                                      validationError := "" |};
                       generator := generator w;
                       sent := (sent w ++ [modelsRequest key])%list;
                       console := console w |})).
  { unfold validateAPIKey, bind, read_keyInput. fold key.
    rewrite (string_truthy_true _ Htrim). cbn [negb].
    unfold try_catch_finally, bind, fetch. cbn.
    fold key. rewrite Hnet, Hok. reflexivity. }
  assert (Hkey : string_truthy key = true).
  { apply string_truthy_true. apply trim_nonempty. exact Htrim. }
  subst w'. unfold after. rewrite Hrun. cbn [snd app app_apiKey].
  split; [reflexivity|]. split.
  { unfold App_render. cbn. rewrite Hkey. reflexivity. }
  split; [apply issued_logged; reflexivity|].
  split; [reflexivity|].
  intros net2 w2 request Happ Hin.
  unfold App_generateImage in Hin. rewrite Happ in Hin.
  unfold App_render in Hin. cbn [app_apiKey] in Hin. rewrite Hkey in Hin.
  apply generateImage_requests_bear_key in Hin. rewrite Hin. reflexivity.
Qed.

End Properties.

(** * Properties of the rest of the interface *)

Section InterfaceProperties.
Context {E : Engine}.
Local Open Scope eff_scope.

(** ** Validation of the key *)

Lemma validateAPIKey_guard_passes (net : Network)
    (onAPIKeyValidated : string -> Eff unit) (w : World) :
  trim (input_apiKey (keyInput w)) <> "" ->
  validateAPIKey net onAPIKeyValidated w
  = try_catch_finally
      (response <- fetch net (modelsRequest (input_apiKey (keyInput w))) ;;
       if ok response then onAPIKeyValidated (input_apiKey (keyInput w))
       else setValidationError "Invalid API key. Please check and try again.")
      (fun _ =>
         setValidationError "Network error. Please check your connection and try again.")
      (setIsValidating false)
      (after (setIsValidating true ;; setValidationError "") w).
Proof.
  intros H. unfold validateAPIKey, bind at 1, read_keyInput.
  rewrite (string_truthy_true _ H). reflexivity.
Qed.

(** The world a validation that did not succeed leaves behind: the
    message, the flag down, the request in the log, the rest as before. *)
Lemma validateAPIKey_refused_run (net : Network)
    (onAPIKeyValidated : string -> Eff unit) (w : World) (message : string) :
  trim (input_apiKey (keyInput w)) <> "" ->
  (exists r, net (modelsRequest (input_apiKey (keyInput w))) = Ok r /\ ok r = false
             /\ message = "Invalid API key. Please check and try again.")
  \/ (exists e, net (modelsRequest (input_apiKey (keyInput w))) = Throw e
              /\ message = "Network error. Please check your connection and try again.") ->
  validateAPIKey net onAPIKeyValidated w
  = (Ok tt,
     {| app := app w;
        keyInput := {| input_apiKey := input_apiKey (keyInput w);
                       isValidating := false;
                       validationError := message |};
        generator := generator w;
        sent := (sent w ++ [modelsRequest (input_apiKey (keyInput w))])%list;
        console := console w |}).
Proof.
  intros Htrim Hnet. rewrite (validateAPIKey_guard_passes _ _ _ Htrim).
  unfold try_catch_finally, bind, fetch.
  destruct Hnet as [(r & Hr & Hok & ->)|(e & He & ->)].
  - rewrite Hr, Hok. reflexivity.
  - rewrite He. reflexivity.
Qed.

(** X1: a key that is not blank and that the listing call answers with a
    non-success status: the handler completes with the invalid-key
    message, the flag down and that one request issued; the callback is
    not run, whatever it is, so [App] and the workspace are as before. *)
Theorem validateAPIKey_rejected_key (net : Network)
    (onAPIKeyValidated : string -> Eff unit) (w : World) (r : Response) :
  trim (input_apiKey (keyInput w)) <> "" ->
  net (modelsRequest (input_apiKey (keyInput w))) = Ok r ->
  ok r = false ->
  validateAPIKey net onAPIKeyValidated w
  = (Ok tt,
     {| app := app w;
        keyInput := {| input_apiKey := input_apiKey (keyInput w);
                       isValidating := false;
                       validationError := "Invalid API key. Please check and try again." |};
        generator := generator w;
        sent := (sent w ++ [modelsRequest (input_apiKey (keyInput w))])%list;
        console := console w |}).
Proof.
  intros Htrim Hnet Hok. apply validateAPIKey_refused_run; [exact Htrim|].
  left. exists r. auto.
Qed.

(** X2: a key that is not blank and a listing call that gets no
    response: the handler completes with the network-error message, the
    flag down and that one request issued; the callback is not run. *)
Theorem validateAPIKey_network_error (net : Network)
    (onAPIKeyValidated : string -> Eff unit) (w : World) (e : exn) :
  trim (input_apiKey (keyInput w)) <> "" ->
  net (modelsRequest (input_apiKey (keyInput w))) = Throw e ->
  validateAPIKey net onAPIKeyValidated w
  = (Ok tt,
     {| app := app w;
        keyInput := {| input_apiKey := input_apiKey (keyInput w);
                       isValidating := false;
                       validationError :=
                         "Network error. Please check your connection and try again." |};
        generator := generator w;
        sent := (sent w ++ [modelsRequest (input_apiKey (keyInput w))])%list;
        console := console w |}).
Proof.
  intros Htrim Hnet. apply validateAPIKey_refused_run; [exact Htrim|].
  right. exists e. auto.
Qed.

(** On a success status the callback runs once, on the key as typed, and
    then the flag goes down. *)
Lemma validateAPIKey_accepted_run (net : Network)
    (onAPIKeyValidated : string -> Eff unit) (w : World) (r : Response) :
  trim (input_apiKey (keyInput w)) <> "" ->
  net (modelsRequest (input_apiKey (keyInput w))) = Ok r ->
  ok r = true ->
  validateAPIKey net onAPIKeyValidated w
  = try_catch_finally
      (onAPIKeyValidated (input_apiKey (keyInput w)))
      (fun _ =>
         setValidationError "Network error. Please check your connection and try again.")
      (setIsValidating false)
      (logged (after (setIsValidating true ;; setValidationError "") w)
              [modelsRequest (input_apiKey (keyInput w))]).
Proof.
  intros Htrim Hnet Hok. rewrite (validateAPIKey_guard_passes _ _ _ Htrim).
  unfold try_catch_finally, bind at 1, fetch. rewrite Hnet, Hok. reflexivity.
Qed.

Lemma validateAPIKey_accepted_by_App (net : Network) (w : World) (r : Response) :
  trim (input_apiKey (keyInput w)) <> "" ->
  net (modelsRequest (input_apiKey (keyInput w))) = Ok r ->
  ok r = true ->
  validateAPIKey net handleAPIKeyValidated w
  = (Ok tt,
     {| app := {| app_apiKey := Some (input_apiKey (keyInput w)) |};
        keyInput := {| input_apiKey := input_apiKey (keyInput w);
                       isValidating := false;
                       validationError := "" |};
        generator := generator w;
        sent := (sent w ++ [modelsRequest (input_apiKey (keyInput w))])%list;
        console := console w |}).
Proof.
  intros Htrim Hnet Hok.
  rewrite (validateAPIKey_accepted_run _ _ _ _ Htrim Hnet Hok). reflexivity.
Qed.

(** Past the guard, the three ways a validation wired to [App] ends. *)
Lemma validateAPIKey_cases (net : Network) (w : World) :
  trim (input_apiKey (keyInput w)) <> "" ->
  let key := input_apiKey (keyInput w) in
  exists (a : AppState) (message : string),
    validateAPIKey net handleAPIKeyValidated w
    = (Ok tt,
       {| app := a;
          keyInput := {| input_apiKey := key; isValidating := false;
                         validationError := message |};
          generator := generator w;
          sent := (sent w ++ [modelsRequest key])%list;
          console := console w |})
    /\ ((a = {| app_apiKey := Some key |} /\ message = ""
         /\ exists r, net (modelsRequest key) = Ok r /\ ok r = true)
        \/ (a = app w
            /\ message = "Invalid API key. Please check and try again.")
        \/ (a = app w
            /\ message = "Network error. Please check your connection and try again.")).
Proof.
  intros Htrim key.
  destruct (net (modelsRequest key)) as [r|e] eqn:Hnet.
  - destruct (ok r) eqn:Hok.
    + exists {| app_apiKey := Some key |}, "". split.
      * apply (validateAPIKey_accepted_by_App net w r Htrim Hnet Hok).
      * left. eauto.
    + exists (app w), "Invalid API key. Please check and try again.". split.
      * apply validateAPIKey_refused_run; [exact Htrim|]. left. exists r. auto.
      * right. left. auto.
  - exists (app w), "Network error. Please check your connection and try again.". split.
    + apply validateAPIKey_refused_run; [exact Htrim|]. right. exists e. auto.
    + right. right. auto.
Qed.

Lemma validateAPIKey_guard_fails (net : Network)
    (onAPIKeyValidated : string -> Eff unit) (w : World) :
  trim (input_apiKey (keyInput w)) = "" ->
  validateAPIKey net onAPIKeyValidated w
  = setValidationError "Please enter your OpenAI API key" w.
Proof.
  intros H. unfold validateAPIKey, bind, read_keyInput. rewrite H. reflexivity.
Qed.

(** X3: past the guard, whatever the network answers and whatever the
    callback does, even throw, no exception escapes [validateAPIKey] and
    the validating flag is down afterwards. *)
Theorem validateAPIKey_always_settles (net : Network)
    (onAPIKeyValidated : string -> Eff unit) (w : World) :
  trim (input_apiKey (keyInput w)) <> "" ->
  outcome (validateAPIKey net onAPIKeyValidated) w = Ok tt
  /\ isValidating (keyInput (after (validateAPIKey net onAPIKeyValidated) w)) = false.
Proof.
  intros Htrim. unfold outcome, after.
  destruct (net (modelsRequest (input_apiKey (keyInput w)))) as [r|e] eqn:Hnet.
  - destruct (ok r) eqn:Hok.
    + rewrite (validateAPIKey_accepted_run _ _ _ _ Htrim Hnet Hok).
      unfold try_catch_finally.
      destruct (onAPIKeyValidated _ _) as [[[]|e] w2]; split; reflexivity.
    + erewrite validateAPIKey_refused_run; [split; reflexivity | exact Htrim |].
      left. exists r. auto.
  - erewrite validateAPIKey_refused_run; [split; reflexivity | exact Htrim |].
    right. exists e. auto.
Qed.

(** X4: when the listing call succeeds and the callback throws, the
    exception is caught by the same [catch] as a failed [fetch]: the
    message shown is the network-error one. *)
Theorem validateAPIKey_callback_failure (net : Network)
    (onAPIKeyValidated : string -> Eff unit) (w : World) (r : Response) (e : exn) :
  trim (input_apiKey (keyInput w)) <> "" ->
  net (modelsRequest (input_apiKey (keyInput w))) = Ok r ->
  ok r = true ->
  (forall w0, outcome (onAPIKeyValidated (input_apiKey (keyInput w))) w0 = Throw e) ->
  outcome (validateAPIKey net onAPIKeyValidated) w = Ok tt
  /\ validationError (keyInput (after (validateAPIKey net onAPIKeyValidated) w))
     = "Network error. Please check your connection and try again."
  /\ isValidating (keyInput (after (validateAPIKey net onAPIKeyValidated) w)) = false.
Proof.
  intros Htrim Hnet Hok Hcb. unfold outcome, after.
  rewrite (validateAPIKey_accepted_run _ _ _ _ Htrim Hnet Hok).
  unfold try_catch_finally.
  match goal with |- context [onAPIKeyValidated ?k ?w0] =>
    pose proof (Hcb w0) as H0; unfold outcome in H0;
    destruct (onAPIKeyValidated k w0) as [x w2]
  end.
  cbn in H0. subst x. repeat split.
Qed.

(** X5: the Enter key runs [validateAPIKey] whatever the validating flag
    says: with a validation under way the button is disabled, and Enter
    still issues the listing request. *)
Theorem handleKeyPress_ignores_flag (net : Network) (w : World) :
  trim (input_apiKey (keyInput w)) <> "" ->
  isValidating (keyInput w) = true ->
  validate_disabled (keyInput w) = true
  /\ issued w (after (handleKeyPress "Enter" net handleAPIKeyValidated) w)
     = [modelsRequest (input_apiKey (keyInput w))].
Proof.
  intros Htrim Hflag. split.
  - unfold validate_disabled. rewrite Hflag. reflexivity.
  - unfold handleKeyPress. cbn [String.eqb Ascii.eqb Bool.eqb].
    destruct (validateAPIKey_cases net w Htrim) as (a & message & Hrun & _).
    unfold after. rewrite Hrun. apply issued_logged. reflexivity.
Qed.

(** X6: a click on the validate button while it is enabled issues
    exactly the listing request and ends with the flag down and one of
    three messages: none, invalid key, or network error; never the
    input-required one. *)
Theorem validate_button_click (net : Network) (w : World) :
  validate_disabled (keyInput w) = false ->
  let w' := after (validateAPIKey net handleAPIKeyValidated) w in
  issued w w' = [modelsRequest (input_apiKey (keyInput w))]
  /\ isValidating (keyInput w') = false
  /\ (validationError (keyInput w') = ""
      \/ validationError (keyInput w') = "Invalid API key. Please check and try again."
      \/ validationError (keyInput w')
         = "Network error. Please check your connection and try again.").
Proof.
  intros Hen w'. unfold validate_disabled in Hen.
  apply orb_false_iff in Hen. destruct Hen as [_ Hen].
  apply negb_false_iff in Hen.
  assert (Htrim : trim (input_apiKey (keyInput w)) <> "").
  { intros H0. rewrite H0 in Hen. discriminate. }
  destruct (validateAPIKey_cases net w Htrim) as (a & message & Hrun & Hcases).
  subst w'. unfold after. rewrite Hrun. cbn [snd keyInput isValidating validationError].
  split; [apply issued_logged; reflexivity|]. split; [reflexivity|].
  destruct Hcases as [(_ & -> & _)|[(_ & ->)|(_ & ->)]]; auto.
Qed.

(** X7: the key [App] holds changes only when the listing call was
    answered with a success status for a key that is not blank, and then
    it becomes that key as typed. *)
Theorem validateAPIKey_changes_key_only_on_success (net : Network) (w : World) :
  let key := input_apiKey (keyInput w) in
  let w' := after (validateAPIKey net handleAPIKeyValidated) w in
  app w' = app w
  \/ (trim key <> ""
      /\ (exists r, net (modelsRequest key) = Ok r /\ ok r = true)
      /\ app_apiKey (app w') = Some key).
Proof.
  intros key w'. subst w'. unfold after.
  destruct (string_dec (trim key) "") as [Hblank|Htrim].
  - left. rewrite (validateAPIKey_guard_fails _ _ _ Hblank). reflexivity.
  - destruct (validateAPIKey_cases net w Htrim) as (a & message & Hrun & Hcases).
    rewrite Hrun. cbn [snd app].
    destruct Hcases as [(-> & _ & Hr)|[(-> & _)|(-> & _)]]; auto.
Qed.

(** Logging out returns to the entry screen, where the generate
    action does not exist: it issues nothing and changes nothing; and a
    successful validation followed by a logout leaves [App] as it
    started. *)
Theorem handleLogout_returns_to_entry (net : Network) (w : World) :
  App_render (app (after handleLogout w)) = KeyEntry
  /\ App_generateImage net (after handleLogout w) = (Ok tt, after handleLogout w)
  /\ app (after handleLogout (after (validateAPIKey net handleAPIKeyValidated) w))
     = App_initial.
Proof. repeat split. Qed.

(** ** The frame of [generateImage] *)

(** Every run of [generateImage], past the guard or not: what it leaves
    alone and how much it adds to the log and to the console. *)
Lemma generateImage_effect (apiKey : string) (net : Network) (w : World) :
  exists (g : ImageGeneratorState) (requests : list Request) (logs : list exn),
    generateImage apiKey net w
    = (Ok tt, {| app := app w; keyInput := keyInput w; generator := g;
                 sent := (sent w ++ requests)%list;
                 console := (console w ++ logs)%list |})
    /\ uploadedImages g = uploadedImages (generator w)
    /\ prompt g = prompt (generator w)
    /\ isDragging g = isDragging (generator w)
    /\ length requests <= 2
    /\ length logs <= 1
    /\ (forall request, In request requests -> req_headers request = bearer_headers apiKey).
Proof.
  destruct (guard_decides (generator w)) as [Hready|Hnot].
  - destruct (generateImage_cases apiKey net w Hready)
      as [[e H]|[[refined [e H]]|[refined [url H]]]]; rewrite H.
    + eexists _, _, [e]. split; [reflexivity|]. cbn.
      repeat split; try lia. intros request [<-|[]]. reflexivity.
    + eexists _, _, [e]. split; [reflexivity|]. cbn.
      repeat split; try lia. intros request [<-|[<-|[]]]; reflexivity.
    + match type of H with _ = (_, succeeded _ ?l _) =>
        exists (generator (succeeded w l url)), l, []
      end.
      split; [unfold succeeded; cbn; rewrite app_nil_r; reflexivity|]. cbn.
      repeat split; try lia. intros request [<-|[<-|[]]]; reflexivity.
  - rewrite (generateImage_guard_fails apiKey net w Hnot).
    exists (generator (after (setError "Please upload at least one image and enter a prompt") w)),
      [], [].
    split; [cbn; rewrite !app_nil_r; reflexivity|]. cbn.
    repeat split; try lia; try (intros request []).
Qed.

(** X8: no run of [generateImage] lets an exception escape or touches
    the uploaded images, the prompt, the drag flag, the key [App] holds
    or the entry screen; it adds at most two requests to the log, each
    with the key it was given, and at most one entry to the console. *)
Theorem generateImage_frame (apiKey : string) (net : Network) (w : World) :
  let w' := after (generateImage apiKey net) w in
  outcome (generateImage apiKey net) w = Ok tt
  /\ uploadedImages (generator w') = uploadedImages (generator w)
  /\ prompt (generator w') = prompt (generator w)
  /\ isDragging (generator w') = isDragging (generator w)
  /\ app w' = app w
  /\ keyInput w' = keyInput w
  /\ sent w' = (sent w ++ issued w w')%list
  /\ length (issued w w') <= 2
  /\ (forall request, In request (issued w w') ->
        header "Authorization" (req_headers request) = Some ("Bearer " ++ apiKey))
  /\ (exists logs, console w' = (console w ++ logs)%list /\ length logs <= 1).
Proof.
  intros w'. subst w'. unfold after, outcome.
  destruct (generateImage_effect apiKey net w)
    as (g & requests & logs & Hrun & Hi & Hp & Hd & Hn & Hl & Hk).
  rewrite Hrun. cbn [fst snd generator app keyInput sent console].
  rewrite (issued_logged w _ requests) by reflexivity.
  repeat split; auto.
  - intros request Hin. rewrite (Hk request Hin). reflexivity.
  - exists logs. auto.
Qed.

(** ** Credentials *)

Lemma bears_key_bearer (request : Request) (key : string) :
  trim key <> "" -> req_headers request = bearer_headers key -> bears_key request.
Proof. intros Hk Hh. exists key. rewrite Hh. auto. Qed.

Lemma credentials_sound_validateAPIKey (net : Network) (w : World) :
  credentials_sound w ->
  credentials_sound (after (validateAPIKey net handleAPIKeyValidated) w).
Proof.
  intros [Hkey Hsent]. unfold after.
  destruct (string_dec (trim (input_apiKey (keyInput w))) "") as [Hblank|Htrim].
  - rewrite (validateAPIKey_guard_fails _ _ _ Hblank). split; assumption.
  - destruct (validateAPIKey_cases net w Htrim) as (a & message & Hrun & Hcases).
    rewrite Hrun. split; cbn [snd app sent].
    + destruct Hcases as [(-> & _)|[(-> & _)|(-> & _)]]; try assumption.
      intros key [= <-]. exact Htrim.
    + intros request Hin. apply in_app_or in Hin. destruct Hin as [Hin|[<-|[]]].
      * apply Hsent. exact Hin.
      * apply (bears_key_bearer _ _ Htrim). reflexivity.
Qed.

Lemma credentials_sound_generateImage (net : Network) (w : World) :
  credentials_sound w -> credentials_sound (after (App_generateImage net) w).
Proof.
  intros Hw. unfold after, App_generateImage, App_render.
  destruct (app_apiKey (app w)) as [key|] eqn:Hheld; [|exact Hw].
  destruct (string_truthy key); [|exact Hw].
  destruct Hw as [Hkey Hsent].
  destruct (generateImage_effect key net w)
    as (g & requests & logs & Hrun & _ & _ & _ & _ & _ & Hk).
  rewrite Hrun. split; cbn [snd app sent].
  - exact Hkey.
  - intros request Hin. apply in_app_or in Hin. destruct Hin as [Hin|Hin].
    + apply Hsent. exact Hin.
    + apply (bears_key_bearer _ key); [apply Hkey; exact Hheld | apply Hk; exact Hin].
Qed.

(** X9: a blank credential is never held and never sent.  In a world
    where the key [App] holds and the credential of every request in the
    log are not blank, they still are after a validation, a key press, a
    logout or a generation; and the initial world is such a world. *)
Theorem credentials_stay_sound (net : Network) (w : World) (key : string) :
  credentials_sound w ->
  credentials_sound (after (validateAPIKey net handleAPIKeyValidated) w)
  /\ credentials_sound (after (handleKeyPress key net handleAPIKeyValidated) w)
  /\ credentials_sound (after handleLogout w)
  /\ credentials_sound (after (App_generateImage net) w)
  /\ credentials_sound
       {| app := App_initial; keyInput := APIKeyInput_initial;
          generator := ImageGenerator_initial; sent := []; console := [] |}.
Proof.
  intros Hw. split; [apply credentials_sound_validateAPIKey; exact Hw|].
  split.
  { unfold handleKeyPress. destruct (String.eqb key "Enter").
    - apply credentials_sound_validateAPIKey. exact Hw.
    - exact Hw. }
  split.
  { destruct Hw as [_ Hsent]. split; [intros k; discriminate | exact Hsent]. }
  split; [apply credentials_sound_generateImage; exact Hw|].
  split; [intros k; discriminate | intros request []].
Qed.

(** ** Failures of [generateImage] other than a rejection *)

(** No response to the refinement request. *)
Lemma generateImage_refinement_unreachable_run (apiKey : string) (net : Network)
    (w : World) (e : exn) :
  can_generate (generator w) ->
  let first := visionRequest apiKey (uploadedImages (generator w)) (prompt (generator w)) in
  net first = Throw e ->
  generateImage apiKey net w = (Ok tt, failed w [first] e).
Proof.
  intros Hready first Hnet.
  rewrite (generateImage_guard_passes apiKey net w Hready).
  erewrite generateImage_caught.
  2:{ unfold generateImage_try, bind, fetch. fold first. rewrite Hnet. reflexivity. }
  reflexivity.
Qed.

(** A success status on the refinement request and a body that cannot be
    read or holds no [choices[0].message]. *)
Lemma generateImage_refinement_unusable_run (apiKey : string) (net : Network)
    (w : World) (rv : Response) (e : exn) :
  can_generate (generator w) ->
  let first := visionRequest apiKey (uploadedImages (generator w)) (prompt (generator w)) in
  net first = Ok rv -> ok rv = true ->
  json rv = Throw e \/ (exists dv, json rv = Ok dv /\ refinedPrompt_of dv = Throw e) ->
  generateImage apiKey net w = (Ok tt, failed w [first] e).
Proof.
  intros Hready first Hnet Hok Hbody.
  rewrite (generateImage_guard_passes apiKey net w Hready).
  erewrite generateImage_caught.
  2:{ unfold generateImage_try, bind, fetch, lift, ret. fold first.
      rewrite Hnet, Hok. cbn [negb].
      destruct Hbody as [Hjson|(dv & Hjson & Hpath)]; rewrite Hjson; [reflexivity|].
      rewrite Hpath. reflexivity. }
  reflexivity.
Qed.

(** The refinement succeeds and there is no response to the synthesis
    request. *)
Lemma generateImage_synthesis_unreachable_run (apiKey : string) (net : Network)
    (w : World) (rv : Response) (dv refined : value) (e : exn) :
  can_generate (generator w) ->
  let first := visionRequest apiKey (uploadedImages (generator w)) (prompt (generator w)) in
  net first = Ok rv -> ok rv = true ->
  json rv = Ok dv -> refinedPrompt_of dv = Ok refined ->
  net (imageRequest apiKey refined) = Throw e ->
  generateImage apiKey net w
  = (Ok tt, failed w [first; imageRequest apiKey refined] e).
Proof.
  intros Hready first Hnet Hok Hjson Hrefined Hnet2.
  rewrite (generateImage_guard_passes apiKey net w Hready).
  erewrite generateImage_caught.
  2:{ unfold generateImage_try, bind, fetch, lift, ret. fold first.
      rewrite Hnet, Hok. cbn [negb]. rewrite Hjson, Hrefined, Hnet2. reflexivity. }
  unfold failed, after. cbn. rewrite <- app_assoc. reflexivity.
Qed.

(** Both requests get a success status, and the body of the second
    cannot be read or holds no [data[0]]. *)
Lemma generateImage_synthesis_unusable_run (apiKey : string) (net : Network)
    (w : World) (rv ri : Response) (dv refined : value) (e : exn) :
  can_generate (generator w) ->
  let first := visionRequest apiKey (uploadedImages (generator w)) (prompt (generator w)) in
  net first = Ok rv -> ok rv = true ->
  json rv = Ok dv -> refinedPrompt_of dv = Ok refined ->
  net (imageRequest apiKey refined) = Ok ri -> ok ri = true ->
  json ri = Throw e \/ (exists di, json ri = Ok di /\ url_of di = Throw e) ->
  generateImage apiKey net w
  = (Ok tt, failed w [first; imageRequest apiKey refined] e).
Proof.
  intros Hready first Hnet Hok Hjson Hrefined Hnet2 Hok2 Hbody.
  rewrite (generateImage_guard_passes apiKey net w Hready).
  erewrite generateImage_caught.
  2:{ unfold generateImage_try, bind, fetch, lift, ret. fold first.
      rewrite Hnet, Hok. cbn [negb]. rewrite Hjson, Hrefined, Hnet2, Hok2. cbn [negb].
      destruct Hbody as [Hjson2|(di & Hjson2 & Hpath)]; rewrite Hjson2; [reflexivity|].
      rewrite Hpath. reflexivity. }
  unfold failed, after. cbn. rewrite <- app_assoc. reflexivity.
Qed.

(** X10: past the guard, when the refinement request gets no response,
    it is the only request issued; the error shown is the message of the
    rejection when that is an [Error], the fixed fallback otherwise; the
    generated image is as before and the flag is down. *)
Theorem generateImage_refinement_unreachable (apiKey : string) (net : Network)
    (w : World) (e : exn) :
  can_generate (generator w) ->
  net (visionRequest apiKey (uploadedImages (generator w)) (prompt (generator w))) = Throw e ->
  let w' := after (generateImage apiKey net) w in
  issued w w' = [visionRequest apiKey (uploadedImages (generator w)) (prompt (generator w))]
  /\ error (generator w')
     = match e with
       | ErrorObject message => message
       | Thrown _ => "Failed to generate image. Please try again."
       end
  /\ generatedImage (generator w') = generatedImage (generator w)
  /\ isGenerating (generator w') = false
  /\ console w' = (console w ++ [e])%list.
Proof.
  intros Hready Hnet w'. subst w'. unfold after.
  rewrite (generateImage_refinement_unreachable_run apiKey net w e Hready Hnet).
  split; [apply issued_logged; reflexivity|]. repeat split.
Qed.

(** X11: past the guard, when the refinement request gets a success
    status and a body that cannot be read as JSON or has no
    [choices[0].message], the synthesis request is never issued: the
    exception of the read becomes the error shown and the generated image
    is as before. *)
Theorem generateImage_refinement_unusable (apiKey : string) (net : Network)
    (w : World) (rv : Response) (e : exn) :
  can_generate (generator w) ->
  net (visionRequest apiKey (uploadedImages (generator w)) (prompt (generator w))) = Ok rv ->
  ok rv = true ->
  json rv = Throw e \/ (exists dv, json rv = Ok dv /\ refinedPrompt_of dv = Throw e) ->
  let w' := after (generateImage apiKey net) w in
  issued w w' = [visionRequest apiKey (uploadedImages (generator w)) (prompt (generator w))]
  /\ error (generator w') = errorMessage_of e
  /\ generatedImage (generator w') = generatedImage (generator w)
  /\ isGenerating (generator w') = false.
Proof.
  intros Hready Hnet Hok Hbody w'. subst w'. unfold after.
  rewrite (generateImage_refinement_unusable_run apiKey net w rv e Hready Hnet Hok Hbody).
  split; [apply issued_logged; reflexivity|]. repeat split.
Qed.

(** X12: past the guard, when the refinement succeeds and the synthesis
    request gets no response or a success status with a body that cannot
    be read as JSON or has no [data[0]], both requests were issued, the
    exception becomes the error shown and the generated image is as
    before. *)
Theorem generateImage_synthesis_failed (apiKey : string) (net : Network)
    (w : World) (rv : Response) (dv refined : value) (e : exn) :
  can_generate (generator w) ->
  net (visionRequest apiKey (uploadedImages (generator w)) (prompt (generator w))) = Ok rv ->
  ok rv = true ->
  json rv = Ok dv -> refinedPrompt_of dv = Ok refined ->
  net (imageRequest apiKey refined) = Throw e
  \/ (exists ri, net (imageRequest apiKey refined) = Ok ri /\ ok ri = true
                 /\ (json ri = Throw e
                     \/ exists di, json ri = Ok di /\ url_of di = Throw e)) ->
  let w' := after (generateImage apiKey net) w in
  issued w w' = [visionRequest apiKey (uploadedImages (generator w)) (prompt (generator w));
                 imageRequest apiKey refined]
  /\ error (generator w') = errorMessage_of e
  /\ generatedImage (generator w') = generatedImage (generator w)
  /\ isGenerating (generator w') = false.
Proof.
  intros Hready Hnet Hok Hjson Hrefined Hsecond w'. subst w'. unfold after.
  assert (Hrun : generateImage apiKey net w
                 = (Ok tt, failed w [visionRequest apiKey (uploadedImages (generator w))
                                       (prompt (generator w));
                                     imageRequest apiKey refined] e)).
  { destruct Hsecond as [Hnet2|(ri & Hnet2 & Hok2 & Hbody)].
    - apply (generateImage_synthesis_unreachable_run apiKey net w rv dv refined e);
        assumption.
    - apply (generateImage_synthesis_unusable_run apiKey net w rv ri dv refined e);
        assumption. }
  rewrite Hrun. split; [apply issued_logged; reflexivity|]. repeat split.
Qed.

(** X13: the generated image changes only through a complete success:
    if it differs after a run, both requests were answered with a success
    status and the new value is the one at [data[0].url] of the second
    body. *)
Theorem generatedImage_changes_only_on_success (apiKey : string) (net : Network)
    (w : World) :
  generatedImage (generator (after (generateImage apiKey net) w))
  <> generatedImage (generator w) ->
  exists (rv ri : Response) (dv refined di : value),
    net (visionRequest apiKey (uploadedImages (generator w)) (prompt (generator w))) = Ok rv
    /\ ok rv = true /\ json rv = Ok dv /\ refinedPrompt_of dv = Ok refined
    /\ net (imageRequest apiKey refined) = Ok ri
    /\ ok ri = true /\ json ri = Ok di
    /\ url_of di = Ok (generatedImage (generator (after (generateImage apiKey net) w))).
Proof.
  unfold after. intros Hchanged.
  destruct (guard_decides (generator w)) as [Hready|Hnot].
  2:{ rewrite (generateImage_guard_fails apiKey net w Hnot) in Hchanged.
      exfalso. apply Hchanged. reflexivity. }
  set (first := visionRequest apiKey (uploadedImages (generator w)) (prompt (generator w)))
    in *.
  assert (Hfailed : forall requests e,
             generateImage apiKey net w = (Ok tt, failed w requests e) -> False).
  { intros requests e Hrun. rewrite Hrun in Hchanged. apply Hchanged. reflexivity. }
  destruct (net first) as [rv|e] eqn:Hnet.
  2:{ exfalso. eapply Hfailed.
      apply (generateImage_refinement_unreachable_run apiKey net w e Hready Hnet). }
  destruct (ok rv) eqn:Hok.
  2:{ exfalso. destruct (throwVisionError_throws rv) as [e He]. eapply Hfailed.
      apply (generateImage_refinement_rejected_run apiKey net w rv e Hready Hnet Hok He). }
  destruct (json rv) as [dv|e] eqn:Hjson.
  2:{ exfalso. eapply Hfailed.
      apply (generateImage_refinement_unusable_run apiKey net w rv e Hready Hnet Hok).
      left. exact Hjson. }
  destruct (refinedPrompt_of dv) as [refined|e] eqn:Hrefined.
  2:{ exfalso. eapply Hfailed.
      apply (generateImage_refinement_unusable_run apiKey net w rv e Hready Hnet Hok).
      right. eauto. }
  destruct (net (imageRequest apiKey refined)) as [ri|e] eqn:Hnet2.
  2:{ exfalso. eapply Hfailed.
      apply (generateImage_synthesis_unreachable_run apiKey net w rv dv refined e);
        assumption. }
  destruct (ok ri) eqn:Hok2.
  2:{ exfalso. destruct (throwImageError_throws ri) as [e He]. eapply Hfailed.
      apply (generateImage_synthesis_rejected_run apiKey net w rv ri dv refined e);
        assumption. }
  destruct (json ri) as [di|e] eqn:Hjson2.
  2:{ exfalso. eapply Hfailed.
      apply (generateImage_synthesis_unusable_run apiKey net w rv ri dv refined e);
        try assumption. left. exact Hjson2. }
  destruct (url_of di) as [url|e] eqn:Hurl.
  2:{ exfalso. eapply Hfailed.
      apply (generateImage_synthesis_unusable_run apiKey net w rv ri dv refined e);
        try assumption. right. eauto. }
  exists rv, ri, dv, refined, di.
  rewrite (generateImage_success_run apiKey net w rv ri dv refined di url
             Hready Hnet Hok Hjson Hrefined Hnet2 Hok2 Hjson2 Hurl).
  repeat split; assumption.
Qed.

(** ** What the refinement request carries *)

(** The parts of the content, by index: the text part, the image parts,
    and nothing after them. *)
Lemma visionContent_by_index (images : list string) (text : string) :
  get_index (visionContent images text) 0
  = Ok (VObject [("type", VString "text");
                 ("text", VString (visionInstruction (length images) text))])
  /\ (forall i, i < length images ->
        get_index (visionContent images text) (S i)
        = Ok (VObject [("type", VString "image_url");
                       ("image_url", VObject [("url", VString (nth i images ""))])]))
  /\ (forall i, length images <= i ->
        get_index (visionContent images text) (S i) = Ok VUndefined).
Proof.
  split; [reflexivity|]. split.
  - intros i Hi. unfold visionContent, get_index. cbn [nth]. f_equal.
    rewrite (nth_indep _ VUndefined
               (VObject [("type", VString "image_url");
                         ("image_url", VObject [("url", VString "")])]))
      by (rewrite length_map; exact Hi).
    apply (map_nth (fun image =>
                      VObject [("type", VString "image_url");
                               ("image_url", VObject [("url", VString image)])])).
  - intros i Hi. unfold visionContent, get_index. cbn [nth]. f_equal.
    apply nth_overflow. rewrite length_map. exact Hi.
Qed.

(** X14: past the guard, the first request [generateImage] issues goes
    to the chat-completions endpoint, and the content of its one message
    is: a text part whose text names the number of uploaded images and
    quotes the prompt as typed; then one image part per uploaded image, in
    upload order, with that image as its URL; and nothing after them. *)
Theorem generateImage_sends_every_image (apiKey : string) (net : Network) (w : World) :
  can_generate (generator w) ->
  let images := uploadedImages (generator w) in
  exists (first : Request) (more : list Request) (body messages message content : value),
    issued w (after (generateImage apiKey net) w) = first :: more
    /\ req_url first = "https://api.openai.com/v1/chat/completions"
    /\ req_method first = POST
    /\ req_body first = Some body
    /\ get body "messages" = Ok messages
    /\ get_index messages 0 = Ok message
    /\ get_index messages 1 = Ok VUndefined
    /\ get message "content" = Ok content
    /\ get_index content 0
       = Ok (VObject
               [("type", VString "text");
                ("text", VString
                   ("Based on these " ++ nat_to_string (length images)
                    ++ " image(s) and the user's request: "
                    ++ dquote ++ prompt (generator w) ++ dquote
                    ++ ", create a detailed and specific prompt for DALL-E 3 image generation. The prompt should be descriptive, artistic, and suitable for creating a high-quality image. Focus on visual elements, style, composition, and artistic details. Consider all the images provided as reference or inspiration."))])
    /\ (forall i, i < length images ->
          get_index content (S i)
          = Ok (VObject [("type", VString "image_url");
                         ("image_url", VObject [("url", VString (nth i images ""))])]))
    /\ (forall i, length images <= i -> get_index content (S i) = Ok VUndefined).
Proof.
  intros Hready images.
  set (first := visionRequest apiKey images (prompt (generator w))).
  assert (Hissued : exists more, issued w (after (generateImage apiKey net) w) = first :: more).
  { unfold after.
    destruct (generateImage_cases apiKey net w Hready)
      as [[e H]|[[refined [e H]]|[refined [url H]]]]; rewrite H;
      eexists; apply issued_logged; reflexivity. }
  destruct Hissued as [more Hissued].
  destruct (visionContent_by_index images (prompt (generator w))) as (Htext & Himages & Hend).
  exists first, more.
  eexists. eexists. eexists. exists (visionContent images (prompt (generator w))).
  split; [exact Hissued|].
  split; [reflexivity|]. split; [reflexivity|]. split; [reflexivity|].
  split; [reflexivity|]. split; [reflexivity|]. split; [reflexivity|].
  split; [reflexivity|].
  split; [exact Htext|]. split; [exact Himages | exact Hend].
Qed.

(** ** Reporting of failures *)

(** C4, amended: past the guard, [generateImage] always completes: no
    exception escapes it and the flag is down afterwards.  An exception of
    the [try] block, whatever raised it, is written to the console and its
    message, through [error instanceof Error ? error.message : ...],
    becomes the error; the error is on display exactly when that message
    is not the empty string, and always when the exception is not an
    [Error].  Without an exception no error is on display. *)
Theorem generateImage_always_settles (apiKey : string) (net : Network) (w : World) :
  can_generate (generator w) ->
  let w' := after (generateImage apiKey net) w in
  let started := after (setIsGenerating true ;; setError "") w in
  let attempt :=
    generateImage_try apiKey net (uploadedImages (generator w)) (prompt (generator w)) in
  outcome (generateImage apiKey net) w = Ok tt
  /\ isGenerating (generator w') = false
  /\ (forall e, outcome attempt started = Throw e ->
        error (generator w') = errorMessage_of e
        /\ console w' = (console w ++ [e])%list
        /\ (error_shown (generator w') = true <-> errorMessage_of e <> "")
        /\ (forall v, e = Thrown v -> error_shown (generator w') = true))
  /\ (outcome attempt started = Ok tt ->
        error (generator w') = ""
        /\ error_shown (generator w') = false
        /\ console w' = console w).
Proof.
  intros Hready w' started attempt. subst w'. unfold after, outcome.
  rewrite (generateImage_guard_passes apiKey net w Hready).
  fold started. fold attempt.
  assert (Hshown : forall e w2,
             let w3 := after (setIsGenerating false) (after (generateImage_catch e) w2) in
             (error_shown (generator w3) = true <-> errorMessage_of e <> "")
             /\ (forall v, e = Thrown v -> error_shown (generator w3) = true)).
  { intros e w2 w3. subst w3. unfold error_shown. cbn. split.
    - destruct (errorMessage_of e); cbn; split; congruence.
    - intros v ->. reflexivity. }
  destruct (generateImage_try_cases apiKey net (uploadedImages (generator w))
              (prompt (generator w)) started)
    as [[e H]|[[refined [e H]]|[refined [url H]]]];
    fold attempt in H; rewrite H.
  - rewrite (generateImage_caught _ _ _ _ H).
    split; [reflexivity|]. split; [reflexivity|]. split; [|discriminate].
    intros e' He'. injection He' as <-.
    split; [reflexivity|]. split; [reflexivity|]. apply Hshown.
  - rewrite (generateImage_caught _ _ _ _ H).
    split; [reflexivity|]. split; [reflexivity|]. split; [|discriminate].
    intros e' He'. injection He' as <-.
    split; [reflexivity|]. split; [reflexivity|]. apply Hshown.
  - rewrite (generateImage_completed _ _ _ H).
    split; [reflexivity|]. split; [reflexivity|]. split; [discriminate|].
    intros _. repeat split.
Qed.

(** ** The buttons *)

Lemma generate_enabled_iff (s : ImageGeneratorState) :
  generate_disabled s = false <-> isGenerating s = false /\ can_generate s.
Proof.
  unfold generate_disabled, can_generate. split.
  - intros H. apply orb_false_iff in H. destruct H as [H Hp].
    apply orb_false_iff in H. destruct H as [Hg Hi].
    apply negb_false_iff in Hp.
    split; [exact Hg|]. split.
    + intros Hnil. rewrite Hnil in Hi. discriminate.
    + intros Hblank. rewrite Hblank in Hp. discriminate.
  - intros (Hg & Hi & Hp). rewrite Hg, (string_truthy_true _ Hp).
    destruct (uploadedImages s); [contradiction | reflexivity].
Qed.

(** X15: the generate button is enabled only where the guard of
    [generateImage] passes: a click on the enabled button always issues
    the refinement request first, from a state that is not generating. *)
Theorem generate_button_click (apiKey : string) (net : Network) (w : World) :
  generate_disabled (generator w) = false ->
  can_generate (generator w)
  /\ isGenerating (generator w) = false
  /\ exists more,
       issued w (after (generateImage apiKey net) w)
       = visionRequest apiKey (uploadedImages (generator w)) (prompt (generator w)) :: more.
Proof.
  intros Hen. apply generate_enabled_iff in Hen. destruct Hen as [Hg Hready].
  split; [exact Hready|]. split; [exact Hg|]. unfold after.
  destruct (generateImage_cases apiKey net w Hready)
    as [[e H]|[[refined [e H]]|[refined [url H]]]]; rewrite H;
    eexists; apply issued_logged; reflexivity.
Qed.

(** X16: after a generation in which both calls succeed and the value at
    [data[0].url] is truthy, the download button is shown, and a click on
    it targets that value under the name [generated-image.png] and leaves
    the state as it is. *)
Theorem downloadImage_after_success (apiKey : string) (net : Network) (w : World)
    (rv ri : Response) (dv refined di url : value) :
  can_generate (generator w) ->
  net (visionRequest apiKey (uploadedImages (generator w)) (prompt (generator w))) = Ok rv ->
  ok rv = true ->
  json rv = Ok dv -> refinedPrompt_of dv = Ok refined ->
  net (imageRequest apiKey refined) = Ok ri ->
  ok ri = true ->
  json ri = Ok di -> url_of di = Ok url ->
  truthy url = true ->
  let w' := after (generateImage apiKey net) w in
  download_shown (generator w') = true
  /\ downloadImage w'
     = (Ok (Some {| href := url; download := "generated-image.png" |}), w').
Proof.
  intros Hready Hnet Hok Hjson Hrefined Hnet2 Hok2 Hjson2 Hurl Htruthy w'.
  subst w'. unfold after.
  rewrite (generateImage_success_run apiKey net w rv ri dv refined di url
             Hready Hnet Hok Hjson Hrefined Hnet2 Hok2 Hjson2 Hurl).
  unfold download_shown, downloadImage, bind, read_generator. cbn. rewrite Htruthy.
  split; reflexivity.
Qed.

(** X17: after a generation in which both calls succeed and the value at
    [data[0].url] is falsy (the datum has no [url]), nothing is reported:
    no error is shown, that value replaces the generated image, no
    download is offered, and [downloadImage] does nothing. *)
Theorem generateImage_success_without_url (apiKey : string) (net : Network) (w : World)
    (rv ri : Response) (dv refined di url : value) :
  can_generate (generator w) ->
  net (visionRequest apiKey (uploadedImages (generator w)) (prompt (generator w))) = Ok rv ->
  ok rv = true ->
  json rv = Ok dv -> refinedPrompt_of dv = Ok refined ->
  net (imageRequest apiKey refined) = Ok ri ->
  ok ri = true ->
  json ri = Ok di -> url_of di = Ok url ->
  truthy url = false ->
  let w' := after (generateImage apiKey net) w in
  error_shown (generator w') = false
  /\ console w' = console w
  /\ generatedImage (generator w') = url
  /\ download_shown (generator w') = false
  /\ downloadImage w' = (Ok None, w').
Proof.
  intros Hready Hnet Hok Hjson Hrefined Hnet2 Hok2 Hjson2 Hurl Hfalsy w'.
  subst w'. unfold after.
  rewrite (generateImage_success_run apiKey net w rv ri dv refined di url
             Hready Hnet Hok Hjson Hrefined Hnet2 Hok2 Hjson2 Hurl).
  unfold download_shown, downloadImage, bind, read_generator. cbn. rewrite Hfalsy.
  repeat split.
Qed.

(** X18: after a reset there is nothing to act on: the generate button
    is disabled, no error and no download are shown, [downloadImage] does
    nothing, and [generateImage], if run all the same, issues no request
    and shows the validation message. *)
Theorem refreshGeneration_then_nothing_to_do (apiKey : string) (net : Network) (w : World) :
  let w' := after refreshGeneration w in
  generate_disabled (generator w') = true
  /\ error_shown (generator w') = false
  /\ download_shown (generator w') = false
  /\ downloadImage w' = (Ok None, w')
  /\ issued w' (after (generateImage apiKey net) w') = []
  /\ error (generator (after (generateImage apiKey net) w'))
     = "Please upload at least one image and enter a prompt".
Proof.
  intros w'.
  assert (Hnot : uploadedImages (generator w') = [] \/ trim (prompt (generator w')) = "")
    by (left; reflexivity).
  unfold after at 1 2. rewrite (generateImage_guard_fails apiKey net w' Hnot).
  split; [unfold generate_disabled; cbn; apply orb_true_r|].
  split; [reflexivity|]. split; [reflexivity|]. split; [reflexivity|].
  split; [|reflexivity].
  apply issued_logged. cbn. symmetry. apply app_nil_r.
Qed.

(** ** Uploads *)

Lemma handleFileUpload_image (file : File) (w : World) :
  is_image file = true -> handleFileUpload file w = (Ok [file], w).
Proof. intros H. unfold handleFileUpload. rewrite H. reflexivity. Qed.

Lemma handleFileUpload_other (file : File) (w : World) :
  is_image file = false ->
  handleFileUpload file w = (Ok [], after (setError "Please upload image files only") w).
Proof. intros H. unfold handleFileUpload. rewrite H. reflexivity. Qed.

Lemma forEach_drop (files : list File) (w : World) :
  forEach (fun file => if is_image file then handleFileUpload file else ret []) files w
  = (Ok (filter is_image files), w).
Proof.
  induction files as [|file rest IH]; [reflexivity|].
  cbn [forEach filter]. unfold bind at 1.
  destruct (is_image file) eqn:Himage.
  - rewrite (handleFileUpload_image file w Himage).
    unfold bind at 1. rewrite IH. reflexivity.
  - unfold ret at 1. unfold bind at 1. rewrite IH. reflexivity.
Qed.

(** The world after the reads of [reads] have settled in that order. *)
Lemma settle_run (reads : list File) (w : World) :
  settle reads w
  = (Ok tt,
     {| app := app w; keyInput := keyInput w;
        generator :=
          {| uploadedImages := (uploadedImages (generator w) ++ data_urls reads)%list;
             prompt := prompt (generator w);
             generatedImage := generatedImage (generator w);
             isGenerating := isGenerating (generator w);
             error := match data_urls reads with
                      | [] => error (generator w)
                      | _ :: _ => ""
                      end;
             isDragging := isDragging (generator w) |};
        sent := sent w; console := console w |}).
Proof.
  revert w. induction reads as [|file rest IH]; intros w.
  - cbn. rewrite app_nil_r. destruct w as [a k g s c]. destruct g. reflexivity.
  - cbn [settle]. unfold bind at 1. unfold data_urls. cbn [flat_map].
    fold (data_urls rest).
    destruct (file_result file) as [newImage|].
    + cbn. rewrite IH. cbn. rewrite <- app_assoc. cbn [List.app].
      destruct (data_urls rest); reflexivity.
    + cbn. rewrite IH. reflexivity.
Qed.

(** X19: a drop lowers the drag flag and starts a read for each image
    file, in order; files of another type are skipped without a word: the
    error message is as before.  Once the reads have settled, the images
    read are appended after the earlier ones, in the order in which the
    reads settled. *)
Theorem handleDrop_appends_images (files : list File) (w : World) :
  handleDrop files w = (Ok (filter is_image files), after (setIsDragging false) w)
  /\ error (generator (after (handleDrop files) w)) = error (generator w)
  /\ isDragging (generator (after (handleDrop files) w)) = false
  /\ uploadedImages (generator (after (handleDrop files) w)) = uploadedImages (generator w)
  /\ (forall order,
        Permutation order (filter is_image files) ->
        uploadedImages (generator (after (settle order) (after (handleDrop files) w)))
        = (uploadedImages (generator w) ++ data_urls order)%list
        /\ Permutation (data_urls order) (data_urls (filter is_image files))).
Proof.
  assert (Hrun : handleDrop files w
                 = (Ok (filter is_image files), after (setIsDragging false) w)).
  { unfold handleDrop, bind at 1. cbn [setIsDragging modify_generator].
    rewrite forEach_drop. reflexivity. }
  split; [exact Hrun|]. unfold after at 1 2 3 5. rewrite Hrun.
  split; [reflexivity|]. split; [reflexivity|]. split; [reflexivity|].
  intros order Hperm. split.
  - unfold after at 1. rewrite settle_run. reflexivity.
  - unfold data_urls. apply Permutation_flat_map. exact Hperm.
Qed.

Lemma forEach_pick (files : list File) (w : World) :
  forEach handleFileUpload files w
  = (Ok (filter is_image files),
     if forallb is_image files then w
     else after (setError "Please upload image files only") w).
Proof.
  revert w. induction files as [|file rest IH]; intros w; [reflexivity|].
  cbn [forEach filter forallb]. unfold bind at 1.
  destruct (is_image file) eqn:Himage; cbn [andb].
  - rewrite (handleFileUpload_image file w Himage).
    unfold bind at 1. rewrite IH. reflexivity.
  - rewrite (handleFileUpload_other file w Himage).
    unfold bind at 1. rewrite IH.
    destruct (forallb is_image rest); reflexivity.
Qed.

(** X20: picking files starts a read for each image file, in order, and
    sets the image-files-only message if any file is of another type;
    with no list of files it does nothing.  The message does not outlive
    the first image read: once a read has succeeded the error is empty. *)
Theorem handleFileChange_reports_other_files (files : list File) (w : World) :
  handleFileChange None w = (Ok [], w)
  /\ outcome (handleFileChange (Some files)) w = Ok (filter is_image files)
  /\ error (generator (after (handleFileChange (Some files)) w))
     = (if forallb is_image files then error (generator w)
        else "Please upload image files only")
  /\ uploadedImages (generator (after (handleFileChange (Some files)) w))
     = uploadedImages (generator w)
  /\ (forall order,
        Permutation order (filter is_image files) ->
        data_urls order <> [] ->
        error (generator (after (settle order) (after (handleFileChange (Some files)) w)))
        = ""
        /\ uploadedImages
             (generator (after (settle order) (after (handleFileChange (Some files)) w)))
           = (uploadedImages (generator w) ++ data_urls order)%list).
Proof.
  split; [reflexivity|].
  unfold outcome, after, handleFileChange. rewrite forEach_pick. cbn [fst snd].
  split; [reflexivity|].
  split; [destruct (forallb is_image files); reflexivity|].
  split; [destruct (forallb is_image files); reflexivity|].
  intros order _ Hloaded. rewrite settle_run. cbn.
  destruct (data_urls order); [contradiction|].
  destruct (forallb is_image files); split; reflexivity.
Qed.

(** X21: uploads never reorder or drop what is there: whatever reads
    settle, in whatever order and whether they succeed or fail, the
    earlier images are a prefix of the sequence afterwards, which grows
    by the number of reads that succeeded; nothing else changes but the
    error, cleared if a read succeeded. *)
Theorem settle_appends (reads : list File) (w : World) :
  let w' := after (settle reads) w in
  outcome (settle reads) w = Ok tt
  /\ uploadedImages (generator w') = (uploadedImages (generator w) ++ data_urls reads)%list
  /\ firstn (length (uploadedImages (generator w))) (uploadedImages (generator w'))
     = uploadedImages (generator w)
  /\ length (uploadedImages (generator w'))
     = length (uploadedImages (generator w)) + length (data_urls reads)
  /\ prompt (generator w') = prompt (generator w)
  /\ generatedImage (generator w') = generatedImage (generator w)
  /\ isGenerating (generator w') = isGenerating (generator w)
  /\ sent w' = sent w.
Proof.
  intros w'. subst w'. unfold outcome, after. rewrite settle_run. cbn.
  split; [reflexivity|]. split; [reflexivity|]. split.
  - rewrite firstn_app, firstn_all, Nat.sub_diag. cbn. apply app_nil_r.
  - split; [apply length_app|]. repeat split.
Qed.

(** X22: an upload followed by the removal of the last index is a round
    trip: the sequence is the one before the upload. *)
Theorem upload_then_remove_last (newImage : string) (w : World) :
  uploadedImages
    (generator
       (after (removeImage (Z.of_nat (length (uploadedImages (generator w)))))
              (after (reader_onload newImage) w)))
  = uploadedImages (generator w).
Proof.
  cbn. unfold filter_indexed.
  rewrite (filter_from_hit _ 0 _ (length (uploadedImages (generator w)))).
  - rewrite firstn_app, firstn_all, Nat.sub_diag. cbn [firstn].
    rewrite skipn_all2 by (rewrite length_app; cbn; lia).
    rewrite !app_nil_r. reflexivity.
  - lia.
  - rewrite length_app. cbn. lia.
Qed.

End InterfaceProperties.

(** * Runs on concrete inputs *)

Section Runs.
Local Existing Instance v8.
Local Open Scope eff_scope.

(** The language fragments, run. *)

Example trim_strips_both_ends : trim "  a fox  " = "a fox".
Proof. reflexivity. Qed.

Example trim_of_blanks :
  trim (String (ascii_of_nat 9) (String (ascii_of_nat 160) " ")) = "".
Proof. reflexivity. Qed.

Example ToString_of_array :
  ToString (VArray [VNumber 1%Z; VNull; VString "x"; VArray [VBool true]])
  = Ok "1,,x,true".
Proof. reflexivity. Qed.

Example ToString_of_object : ToString (VObject [("code", VNumber 7%Z)]) = Ok "[object Object]".
Proof. reflexivity. Qed.

Example message_of_payload :
  error_message_of (VObject [("error", VObject [("message", VString "quota")])])
  = Ok (VString "quota").
Proof. reflexivity. Qed.

Example message_of_bare_payload : error_message_of (VObject []) = Ok VUndefined.
Proof. reflexivity. Qed.

Example message_of_null :
  error_message_of VNull
  = Throw (ErrorObject "Cannot read properties of null (reading 'error')").
Proof. reflexivity. Qed.

Example refinedPrompt_of_completion :
  json (completion refined_text) = Ok (VObject [("choices",
    VArray [VObject [("message",
      VObject [("role", VString "assistant"); ("content", VString refined_text)])]])])
  /\ refinedPrompt_of (VObject [("choices",
        VArray [VObject [("message",
          VObject [("role", VString "assistant"); ("content", VString refined_text)])]])])
     = Ok (VString refined_text).
Proof. split; reflexivity. Qed.

Example url_of_empty_data :
  url_of (VObject [("data", VArray [])])
  = Throw (ErrorObject "Cannot read properties of undefined (reading 'url')").
Proof. reflexivity. Qed.

Example removeImage_negative_index :
  uploadedImages (generator (after (removeImage (-1)) blank_prompt))
  = [fox_image; owl_image; elk_image].
Proof. reflexivity. Qed.

Example generateImage_success_requests :
  map req_url (issued ready (after (generateImage "sk-test" net_success) ready))
  = ["https://api.openai.com/v1/chat/completions"; imagesEndpoint].
Proof. reflexivity. Qed.

Lemma ready_can_generate : can_generate (generator ready).
Proof. split; discriminate. Qed.

(** C1, counterexample: the precondition holds and the refinement
    call is answered [502 Bad Gateway] with a body that is not JSON.  The
    response supplies no message, and the error shown is not the
    synthesized [Vision API error: 502 Bad Gateway] nor the fallback of
    the [catch] block, but the message of the parser's exception. *)
Lemma generateImage_refinement_rejected_body_not_json :
  can_generate (generator ready)
  /\ net_gateway (visionRequest "sk-test" (uploadedImages (generator ready))
                                (prompt (generator ready))) = Ok bad_gateway
  /\ ok bad_gateway = false
  /\ json bad_gateway
     = Throw (ErrorObject "Unexpected token '<', <html>... is not valid JSON")
  /\ error (generator (after (generateImage "sk-test" net_gateway) ready))
     = "Unexpected token '<', <html>... is not valid JSON"
  /\ error (generator (after (generateImage "sk-test" net_gateway) ready))
     <> "Vision API error: 502 Bad Gateway"
  /\ error (generator (after (generateImage "sk-test" net_gateway) ready))
     <> "Failed to generate image. Please try again.".
Proof.
  split; [exact ready_can_generate|].
  repeat split; try reflexivity; vm_compute; discriminate.
Qed.

Lemma generateImage_refinement_rejected_witness :
  can_generate (generator ready)
  /\ ok (rejected 401 "Unauthorized" "Incorrect API key provided") = false
  /\ issued ready (after (generateImage "sk-test" net_unauthorized) ready)
     = [visionRequest "sk-test" [fox_image] "a fox in the snow"]
  /\ error (generator (after (generateImage "sk-test" net_unauthorized) ready))
     = "Incorrect API key provided".
Proof.
  split; [exact ready_can_generate|]. split; [reflexivity|].
  destruct (generateImage_refinement_rejected "sk-test" net_unauthorized ready
              (rejected 401 "Unauthorized" "Incorrect API key provided")
              ready_can_generate eq_refl eq_refl)
    as (Hissued & _ & Hmessage & _).
  split; [exact Hissued|].
  apply (Hmessage _ (VString "Incorrect API key provided") _ eq_refl eq_refl eq_refl eq_refl).
Defined.

Lemma generateImage_missing_input_witness :
  trim (prompt (generator blank_prompt)) = ""
  /\ error (generator (after (generateImage "sk-test" net_success) blank_prompt))
     = "Please upload at least one image and enter a prompt"
  /\ issued blank_prompt (after (generateImage "sk-test" net_success) blank_prompt) = []
  /\ generatedImage (generator (after (generateImage "sk-test" net_success) blank_prompt))
     = VString "https://images.example/earlier.png".
Proof.
  split; [reflexivity|].
  destruct (generateImage_missing_input "sk-test" net_success blank_prompt
              (or_intror eq_refl))
    as (_ & Herror & _ & Hissued & _ & _ & Himage & _).
  split; [exact Herror|]. split; [exact Hissued|]. exact Himage.
Defined.

Lemma generateImage_success_witness :
  can_generate (generator ready)
  /\ generatedImage (generator ready) = VString "https://images.example/earlier.png"
  /\ generatedImage (generator (after (generateImage "sk-test" net_success) ready))
     = VString "https://images.example/fresh.png"
  /\ isGenerating (generator (after (generateImage "sk-test" net_success) ready)) = false.
Proof.
  split; [exact ready_can_generate|]. split; [reflexivity|].
  destruct (generateImage_success "sk-test" net_success ready
              (completion refined_text) (image_created "https://images.example/fresh.png")
              _ (VString refined_text) _ (VString "https://images.example/fresh.png")
              ready_can_generate eq_refl eq_refl eq_refl eq_refl eq_refl eq_refl
              eq_refl eq_refl)
    as (Himage & Hflag & _).
  split; [exact Himage | exact Hflag].
Defined.

Lemma generateImage_synthesis_rejected_witness :
  can_generate (generator ready)
  /\ ok (rejected 400 "Bad Request" "Your request was rejected by the safety system") = false
  /\ generatedImage (generator (after (generateImage "sk-test" net_refused) ready))
     = VString "https://images.example/earlier.png"
  /\ uploadedImages (generator (after (generateImage "sk-test" net_refused) ready))
     = [fox_image]
  /\ prompt (generator (after (generateImage "sk-test" net_refused) ready))
     = "a fox in the snow"
  /\ error (generator (after (generateImage "sk-test" net_refused) ready))
     = "Your request was rejected by the safety system".
Proof.
  split; [exact ready_can_generate|]. split; [reflexivity|].
  destruct (generateImage_synthesis_rejected "sk-test" net_refused ready
              (completion refined_text)
              (rejected 400 "Bad Request" "Your request was rejected by the safety system")
              _ (VString refined_text)
              ready_can_generate eq_refl eq_refl eq_refl eq_refl eq_refl eq_refl)
    as (Himage & Himages & Hprompt & _ & _ & Hmessage & _ & _).
  split; [exact Himage|]. split; [exact Himages|]. split; [exact Hprompt|].
  apply (Hmessage _ (VString "Your request was rejected by the safety system") _
           eq_refl eq_refl eq_refl eq_refl).
Defined.

Lemma removeImage_valid_index_witness :
  uploadedImages (generator blank_prompt) = [fox_image; owl_image; elk_image]
  /\ uploadedImages (generator (after (removeImage 1) blank_prompt))
     = [fox_image; elk_image]
  /\ length (uploadedImages (generator (after (removeImage 1) blank_prompt))) = 2.
Proof.
  split; [reflexivity|].
  destruct (removeImage_valid_index blank_prompt 1 ltac:(cbn; lia)) as (Himages & Hlength & _).
  split; [exact Himages | exact Hlength].
Defined.

Lemma removeImage_index_out_of_range_witness :
  uploadedImages (generator (after (removeImage 3) blank_prompt))
  = [fox_image; owl_image; elk_image].
Proof.
  apply (removeImage_index_out_of_range blank_prompt 3). cbn. lia.
Defined.

Lemma validateAPIKey_missing_input_witness :
  trim (input_apiKey (keyInput key_blank)) = ""
  /\ validationError (keyInput (after (validateAPIKey net_models handleAPIKeyValidated)
                                     key_blank))
     = "Please enter your OpenAI API key"
  /\ issued key_blank (after (validateAPIKey net_models handleAPIKeyValidated) key_blank)
     = []
  /\ app_apiKey (app (after (validateAPIKey net_models handleAPIKeyValidated) key_blank))
     = None.
Proof.
  split; [reflexivity|].
  destruct (validateAPIKey_missing_input net_models handleAPIKeyValidated key_blank eq_refl)
    as (Hrun & Hissued & Hkey).
  split; [unfold after; rewrite Hrun; reflexivity|].
  split; [exact Hissued | exact Hkey].
Defined.

Lemma validateAPIKey_propagates_exact_key_witness :
  input_apiKey (keyInput key_typed) = " sk-test "
  /\ ok models_listed = true
  /\ app_apiKey (app (after (validateAPIKey net_models handleAPIKeyValidated) key_typed))
     = Some " sk-test "
  /\ header "Authorization"
       (req_headers (modelsRequest (input_apiKey (keyInput key_typed))))
     = Some "Bearer  sk-test ".
Proof.
  split; [reflexivity|]. split; [reflexivity|].
  assert (Htrim : trim (input_apiKey (keyInput key_typed)) <> "")
    by (vm_compute; discriminate).
  destruct (validateAPIKey_propagates_exact_key net_models key_typed models_listed
              Htrim eq_refl eq_refl)
    as (Hkey & _ & _ & Hheader & _).
  split; [exact Hkey | exact Hheader].
Defined.

End Runs.

(** * Runs of the rest of the interface *)

Section MoreRuns.
Local Existing Instance v8.
Local Open Scope eff_scope.

Example is_image_by_type :
  map is_image [png_file; jpeg_file; text_file; broken_png] = [true; true; false; true].
Proof. reflexivity. Qed.

Example drop_of_mixed_files :
  outcome (handleDrop [text_file; png_file; broken_png; jpeg_file]) empty_with_error
  = Ok [png_file; broken_png; jpeg_file]
  /\ generator (after (settle [jpeg_file; broken_png; png_file])
                      (after (handleDrop [text_file; png_file; broken_png; jpeg_file])
                             empty_with_error))
     = {| uploadedImages := [elk_image; fox_image]; prompt := "a fox";
          generatedImage := VNull; isGenerating := false; error := "";
          isDragging := false |}.
Proof. split; reflexivity. Qed.

Example pick_of_mixed_files :
  error (generator (after (handleFileChange (Some [png_file; text_file])) ready))
  = "Please upload image files only"
  /\ error (generator (after (settle [png_file])
                             (after (handleFileChange (Some [png_file; text_file])) ready)))
     = "".
Proof. split; reflexivity. Qed.

Lemma key_typed_not_blank : trim (input_apiKey (keyInput key_typed)) <> "".
Proof. vm_compute. discriminate. Qed.

Lemma key_validating_not_blank : trim (input_apiKey (keyInput key_validating)) <> "".
Proof. vm_compute. discriminate. Qed.

Lemma ready_credentials_sound : credentials_sound ready.
Proof.
  split.
  - intros key [= <-]. vm_compute. discriminate.
  - intros request [].
Qed.

Lemma validateAPIKey_rejected_key_witness :
  ok (rejected 401 "Unauthorized" "Incorrect API key provided") = false
  /\ validationError
       (keyInput (after (validateAPIKey net_unauthorized handleAPIKeyValidated) key_typed))
     = "Invalid API key. Please check and try again."
  /\ app_apiKey (app (after (validateAPIKey net_unauthorized handleAPIKeyValidated) key_typed))
     = None.
Proof.
  split; [reflexivity|].
  pose proof (validateAPIKey_rejected_key net_unauthorized handleAPIKeyValidated key_typed
                (rejected 401 "Unauthorized" "Incorrect API key provided")
                key_typed_not_blank eq_refl eq_refl) as Hrun.
  unfold after. rewrite Hrun. split; reflexivity.
Defined.

Lemma validateAPIKey_network_error_witness :
  validationError (keyInput (after (validateAPIKey net_down handleAPIKeyValidated) key_typed))
  = "Network error. Please check your connection and try again."
  /\ isValidating (keyInput (after (validateAPIKey net_down handleAPIKeyValidated) key_typed))
     = false.
Proof.
  pose proof (validateAPIKey_network_error net_down handleAPIKeyValidated key_typed
                (ErrorObject "Failed to fetch") key_typed_not_blank eq_refl) as Hrun.
  unfold after. rewrite Hrun. split; reflexivity.
Defined.

Lemma validateAPIKey_always_settles_witness :
  outcome (validateAPIKey net_models failing_callback) key_typed = Ok tt
  /\ isValidating (keyInput (after (validateAPIKey net_models failing_callback) key_typed))
     = false.
Proof.
  exact (validateAPIKey_always_settles net_models failing_callback key_typed
           key_typed_not_blank).
Defined.

Lemma validateAPIKey_callback_failure_witness :
  ok models_listed = true
  /\ validationError
       (keyInput (after (validateAPIKey net_models failing_callback) key_typed))
     = "Network error. Please check your connection and try again.".
Proof.
  split; [reflexivity|].
  exact (proj1 (proj2 (validateAPIKey_callback_failure net_models failing_callback key_typed
                         models_listed (ErrorObject "parent failed")
                         key_typed_not_blank eq_refl eq_refl (fun _ => eq_refl)))).
Defined.

Lemma handleKeyPress_ignores_flag_witness :
  isValidating (keyInput key_validating) = true
  /\ validate_disabled (keyInput key_validating) = true
  /\ issued key_validating
       (after (handleKeyPress "Enter" net_models handleAPIKeyValidated) key_validating)
     = [modelsRequest "sk-test"].
Proof.
  split; [reflexivity|].
  exact (handleKeyPress_ignores_flag net_models key_validating
           key_validating_not_blank eq_refl).
Defined.

Lemma validate_button_click_witness :
  validate_disabled (keyInput key_typed) = false
  /\ issued key_typed (after (validateAPIKey net_unauthorized handleAPIKeyValidated) key_typed)
     = [modelsRequest " sk-test "]
  /\ isValidating
       (keyInput (after (validateAPIKey net_unauthorized handleAPIKeyValidated) key_typed))
     = false.
Proof.
  split; [reflexivity|].
  destruct (validate_button_click net_unauthorized key_typed eq_refl) as (Hissued & Hflag & _).
  split; [exact Hissued | exact Hflag].
Defined.

Lemma credentials_stay_sound_witness :
  credentials_sound ready
  /\ credentials_sound (after (App_generateImage net_success) ready)
  /\ credentials_sound (after handleLogout ready).
Proof.
  split; [exact ready_credentials_sound|].
  destruct (credentials_stay_sound net_success ready "Enter" ready_credentials_sound)
    as (_ & _ & Hlogout & Hgenerate & _).
  split; [exact Hgenerate | exact Hlogout].
Defined.

Lemma generateImage_refinement_unreachable_witness :
  can_generate (generator ready)
  /\ issued ready (after (generateImage "sk-test" net_down) ready)
     = [visionRequest "sk-test" [fox_image] "a fox in the snow"]
  /\ error (generator (after (generateImage "sk-test" net_down) ready)) = "Failed to fetch".
Proof.
  split; [exact ready_can_generate|].
  destruct (generateImage_refinement_unreachable "sk-test" net_down ready
              (ErrorObject "Failed to fetch") ready_can_generate eq_refl)
    as (Hissued & Herror & _).
  split; [exact Hissued | exact Herror].
Defined.

Lemma generateImage_refinement_unusable_witness :
  can_generate (generator ready)
  /\ ok completion_empty = true
  /\ issued ready (after (generateImage "sk-test" net_completion_empty) ready)
     = [visionRequest "sk-test" [fox_image] "a fox in the snow"]
  /\ error (generator (after (generateImage "sk-test" net_completion_empty) ready))
     = "Cannot read properties of undefined (reading 'message')".
Proof.
  split; [exact ready_can_generate|]. split; [reflexivity|].
  destruct (generateImage_refinement_unusable "sk-test" net_completion_empty ready
              completion_empty
              (ErrorObject "Cannot read properties of undefined (reading 'message')")
              ready_can_generate eq_refl eq_refl
              (or_intror (ex_intro _ (VObject [("choices", VArray [])])
                            (conj eq_refl eq_refl))))
    as (Hissued & Herror & _).
  split; [exact Hissued | exact Herror].
Defined.

Lemma generateImage_synthesis_failed_witness :
  can_generate (generator ready)
  /\ ok image_without_data = true
  /\ map req_url (issued ready (after (generateImage "sk-test" net_image_without_data) ready))
     = ["https://api.openai.com/v1/chat/completions"; imagesEndpoint]
  /\ error (generator (after (generateImage "sk-test" net_image_without_data) ready))
     = "Cannot read properties of undefined (reading 'url')"
  /\ generatedImage (generator (after (generateImage "sk-test" net_image_without_data) ready))
     = VString "https://images.example/earlier.png".
Proof.
  split; [exact ready_can_generate|]. split; [reflexivity|].
  destruct (generateImage_synthesis_failed "sk-test" net_image_without_data ready
              (completion refined_text) _ (VString refined_text)
              (ErrorObject "Cannot read properties of undefined (reading 'url')")
              ready_can_generate eq_refl eq_refl eq_refl eq_refl
              (or_intror (ex_intro _ image_without_data
                 (conj eq_refl (conj eq_refl
                    (or_intror (ex_intro _ (VObject [("data", VArray [])])
                                  (conj eq_refl eq_refl))))))))
    as (Hissued & Herror & Himage & _).
  split; [rewrite Hissued; reflexivity|]. split; [exact Herror | exact Himage].
Defined.

Lemma generatedImage_changes_only_on_success_witness :
  generatedImage (generator (after (generateImage "sk-test" net_success) ready))
  <> generatedImage (generator ready)
  /\ exists (rv ri : Response),
       net_success (visionRequest "sk-test" [fox_image] "a fox in the snow") = Ok rv
       /\ ok rv = true /\ ok ri = true.
Proof.
  assert (Hchanged : generatedImage (generator (after (generateImage "sk-test" net_success) ready))
                     <> generatedImage (generator ready))
    by (vm_compute; discriminate).
  split; [exact Hchanged|].
  destruct (generatedImage_changes_only_on_success "sk-test" net_success ready Hchanged)
    as (rv & ri & dv & refined & di & Hnet & Hok & _ & _ & _ & Hok2 & _).
  exists rv, ri. split; [exact Hnet|]. split; [exact Hok | exact Hok2].
Defined.

Lemma generate_button_click_witness :
  generate_disabled (generator ready) = false
  /\ can_generate (generator ready)
  /\ isGenerating (generator ready) = false.
Proof.
  split; [reflexivity|].
  destruct (generate_button_click "sk-test" net_success ready eq_refl) as (Hready & Hflag & _).
  split; [exact Hready | exact Hflag].
Defined.

Lemma downloadImage_after_success_witness :
  can_generate (generator ready)
  /\ outcome downloadImage (after (generateImage "sk-test" net_success) ready)
     = Ok (Some {| href := VString "https://images.example/fresh.png";
                   download := "generated-image.png" |}).
Proof.
  split; [exact ready_can_generate|].
  destruct (downloadImage_after_success "sk-test" net_success ready
              (completion refined_text) (image_created "https://images.example/fresh.png")
              _ (VString refined_text) _ (VString "https://images.example/fresh.png")
              ready_can_generate eq_refl eq_refl eq_refl eq_refl eq_refl eq_refl
              eq_refl eq_refl eq_refl)
    as (_ & Hlink).
  unfold outcome. rewrite Hlink. reflexivity.
Defined.

Lemma generateImage_success_without_url_witness :
  can_generate (generator ready)
  /\ ok image_without_url = true
  /\ error (generator (after (generateImage "sk-test" net_image_without_url) ready)) = ""
  /\ generatedImage (generator (after (generateImage "sk-test" net_image_without_url) ready))
     = VUndefined
  /\ download_shown (generator (after (generateImage "sk-test" net_image_without_url) ready))
     = false.
Proof.
  split; [exact ready_can_generate|]. split; [reflexivity|].
  destruct (generateImage_success_without_url "sk-test" net_image_without_url ready
              (completion refined_text) image_without_url
              _ (VString refined_text) _ VUndefined
              ready_can_generate eq_refl eq_refl eq_refl eq_refl eq_refl eq_refl
              eq_refl eq_refl eq_refl)
    as (_ & _ & Himage & Hshown & _).
  split; [reflexivity|]. split; [exact Himage | exact Hshown].
Defined.

Lemma generateImage_sends_every_image_witness :
  can_generate (generator ready)
  /\ exists (first : Request) (more : list Request) (content : value),
       issued ready (after (generateImage "sk-test" net_success) ready) = first :: more
       /\ req_url first = "https://api.openai.com/v1/chat/completions"
       /\ get_index content 1
          = Ok (VObject [("type", VString "image_url");
                         ("image_url", VObject [("url", VString fox_image)])])
       /\ get_index content 2 = Ok VUndefined.
Proof.
  split; [exact ready_can_generate|].
  destruct (generateImage_sends_every_image "sk-test" net_success ready ready_can_generate)
    as (first & more & body & messages & message & content
        & Hissued & Hurl & _ & _ & _ & _ & _ & _ & _ & Himages & Hend).
  exists first, more, content.
  split; [exact Hissued|]. split; [exact Hurl|].
  split; [apply (Himages 0); cbn; lia | apply (Hend 1); cbn; lia].
Defined.

(** C4, counterexample: the precondition holds and the refinement call
    is answered [400] with [{"error": {"message": []}}].  The message is
    truthy, its string form is empty: the [try] block throws an [Error]
    with the empty message, the handler sets the error to the empty
    string, and no error is on display. *)
Lemma generateImage_exception_not_displayed :
  can_generate (generator ready)
  /\ ok rejected_empty_array = false
  /\ outcome (generateImage_try "sk-test" net_refinement_empty_array
                (uploadedImages (generator ready)) (prompt (generator ready)))
             (after (setIsGenerating true ;; setError "") ready)
     = Throw (ErrorObject "")
  /\ outcome (generateImage "sk-test" net_refinement_empty_array) ready = Ok tt
  /\ error (generator (after (generateImage "sk-test" net_refinement_empty_array) ready)) = ""
  /\ error_shown
       (generator (after (generateImage "sk-test" net_refinement_empty_array) ready))
     = false.
Proof.
  split; [exact ready_can_generate|]. repeat split.
Qed.

Lemma generateImage_always_settles_witness :
  can_generate (generator ready)
  /\ outcome (generateImage "sk-test" net_gateway) ready = Ok tt
  /\ isGenerating (generator (after (generateImage "sk-test" net_gateway) ready)) = false
  /\ error (generator (after (generateImage "sk-test" net_gateway) ready))
     = "Unexpected token '<', <html>... is not valid JSON"
  /\ error_shown (generator (after (generateImage "sk-test" net_gateway) ready)) = true.
Proof.
  split; [exact ready_can_generate|].
  destruct (generateImage_always_settles "sk-test" net_gateway ready ready_can_generate)
    as (Hdone & Hflag & Hcaught & _).
  split; [exact Hdone|]. split; [exact Hflag|].
  destruct (Hcaught (ErrorObject "Unexpected token '<', <html>... is not valid JSON") eq_refl)
    as (Herror & _ & Hshown & _).
  split; [exact Herror|]. apply Hshown. discriminate.
Defined.

(** C5, counterexample: the precondition holds, the refinement call
    succeeds, and the synthesis call is answered [400] with [{"error":
    {"message": []}}]: the error ends as the empty string, the value it
    was cleared to, and no error is on display. *)
Lemma generateImage_synthesis_rejected_no_message :
  can_generate (generator ready)
  /\ ok (completion refined_text) = true
  /\ ok rejected_empty_array = false
  /\ map req_url
       (issued ready (after (generateImage "sk-test" net_synthesis_empty_array) ready))
     = ["https://api.openai.com/v1/chat/completions"; imagesEndpoint]
  /\ error (generator (after (generateImage "sk-test" net_synthesis_empty_array) ready)) = ""
  /\ error_shown
       (generator (after (generateImage "sk-test" net_synthesis_empty_array) ready))
     = false.
Proof.
  split; [exact ready_can_generate|]. repeat split.
Qed.

End MoreRuns.
